(** * homebridge-xiaomi-purifier: device polling, dispatch and write commands

    A shallow embedding of [src/device.ts] and [src/accessory.ts].

    - JavaScript values are a small tagged union; numbers are the integers
      the device reports ([Z]).
    - A JavaScript object is an association list in insertion order (none of
      the keys used here is integer-like, so [Object.keys]/[Object.entries]
      enumerate in insertion order).
    - Asynchronous code is sequenced in a state-and-exception monad: [await]
      is [bind], a rejected promise is [Throw].  The transport client is an
      oracle answering each call from the history of events so far, and every
      outbound call, timer wait, completion callback and update action is
      appended to a trace. *)

From Stdlib Require Import List String ZArith QArith Qround Bool Arith Lia.
Import ListNotations.
Open Scope string_scope.
Open Scope list_scope.

(** ** JavaScript values and objects *)

Inductive value : Type :=
| VUndefined
| VNull
| VBool (b : bool)
| VNum (n : Z)
| VStr (s : string).

(** [a === b] on primitive values. *)
Definition strict_eq (a b : value) : bool :=
  match a, b with
  | VUndefined, VUndefined => true
  | VNull, VNull => true
  | VBool x, VBool y => Bool.eqb x y
  | VNum x, VNum y => Z.eqb x y
  | VStr x, VStr y => String.eqb x y
  | _, _ => false
  end.

(** [a !== b]. *)
Definition strict_neq (a b : value) : bool := negb (strict_eq a b).

(** [!!v] for the primitive values. *)
Definition truthy (v : value) : bool :=
  match v with
  | VUndefined | VNull => false
  | VBool b => b
  | VNum n => negb (Z.eqb n 0)
  | VStr s => negb (String.eqb s "")
  end.

(** An object: own string-keyed properties in insertion order. *)
Definition Obj : Type := list (string * value).

(** [o[key]]: the property's value, [undefined] when absent. *)
Fixpoint prop_get (o : Obj) (key : string) : value :=
  match o with
  | [] => VUndefined
  | (k, v) :: o' => if String.eqb k key then v else prop_get o' key
  end.

(** [o[key] = v]: overwrite in place when present, append otherwise. *)
Fixpoint prop_set (o : Obj) (key : string) (v : value) : Obj :=
  match o with
  | [] => [(key, v)]
  | (k, w) :: o' =>
      if String.eqb k key then (k, v) :: o' else (k, w) :: prop_set o' key v
  end.

(** [Object.keys(o)] and [Object.entries(o)]. *)
Definition keys (o : Obj) : list string := map fst o.
Definition entries (o : Obj) : list (string * value) := o.

(** lodash [zip(a, b)]: as long as the longer argument, the shorter one
    padded with [undefined].  A missing key is [None]. *)
Fixpoint zip (ks : list string) (vs : list value) : list (option string * value) :=
  match ks with
  | [] => map (fun v => (None, v)) vs
  | k :: ks' =>
      match vs with
      | [] => (Some k, VUndefined) :: zip ks' []
      | v :: vs' => (Some k, v) :: zip ks' vs'
      end
  end.

(** Property-key coercion of an entry's first component. *)
Definition toPropertyKey (k : option string) : string :=
  match k with
  | Some s => s
  | None => "undefined"
  end.

(** [Object.fromEntries(es)]. *)
Definition fromEntries (es : list (option string * value)) : Obj :=
  fold_left (fun o e => prop_set o (toPropertyKey (fst e)) (snd e)) es [].

(** ** device.ts *)

Module PropertyKeys.
Definition POWER := "power".
Definition AIR_QUALITY_INDEX := "aqi".
Definition AVERAGE_AIR_QUALITY_INDEX := "average_aqi".
Definition HUMIDITY := "humidity".
Definition TEMPERATURE := "temp_dec".
Definition MODE := "mode".
Definition FAVORITE_ROTATION_SPEED_LEVEL := "favorite_level".
Definition FILTER_LIFE_REMAINING := "filter1_life".
Definition FILTER_HOURS_USED := "f1_hour_used".
Definition USE_TIME := "use_time".
Definition MOTOR_SPEED := "motor1_speed".
Definition MOTOR_2_SPEED := "motor2_speed".
Definition PURIFY_VOLUME := "purify_volume".
Definition LED := "led".
Definition LED_BRIGHTNESS := "led_b".
Definition ILLUMINANCE := "bright".
Definition BUZZER := "buzzer".
Definition BUZZER_VOLUME := "volume".
Definition CHILD_LOCK := "child_lock".
Definition FILTER_RFID_PRODUCT_ID := "rfid_product_id".
Definition FILTER_RFID_TAG_ID := "rfid_tag".
Definition SLEEP_LEARNING_MODE := "act_sleep".
Definition SLEEP_MODE := "sleep_mode".
Definition SLEEP_TIME := "sleep_time".
Definition SLEEP_LEARNING_MODE_COUNT := "sleep_data_num".
Definition EXTRA_MODE_SUPPORTED := "app_extra".
Definition AUTO_DETECT := "act_det".
Definition LAST_BUTTON_PRESSED := "button_pressed".
End PropertyKeys.

Definition DEFAULT_VALUE : Obj :=
  [ (PropertyKeys.POWER, VStr "off");
    (PropertyKeys.AIR_QUALITY_INDEX, VNum 0);
    (PropertyKeys.AVERAGE_AIR_QUALITY_INDEX, VNum 0);
    (PropertyKeys.HUMIDITY, VNum 0);
    (PropertyKeys.TEMPERATURE, VNum 0);
    (PropertyKeys.MODE, VStr "auto");
    (PropertyKeys.FAVORITE_ROTATION_SPEED_LEVEL, VNum 0);
    (PropertyKeys.FILTER_LIFE_REMAINING, VNum 0);
    (PropertyKeys.FILTER_HOURS_USED, VNum 0);
    (PropertyKeys.USE_TIME, VNum 0);
    (PropertyKeys.MOTOR_SPEED, VNum 0);
    (PropertyKeys.MOTOR_2_SPEED, VNum 0);
    (PropertyKeys.PURIFY_VOLUME, VNum 0);
    (PropertyKeys.LED, VStr "off");
    (PropertyKeys.LED_BRIGHTNESS, VNull);
    (PropertyKeys.ILLUMINANCE, VNum 0);
    (PropertyKeys.BUZZER, VStr "off");
    (PropertyKeys.BUZZER_VOLUME, VNull);
    (PropertyKeys.CHILD_LOCK, VStr "off");
    (PropertyKeys.FILTER_RFID_PRODUCT_ID, VStr "0:0:0:0");
    (PropertyKeys.FILTER_RFID_TAG_ID, VStr "00:00:00:00:00:00:0");
    (PropertyKeys.SLEEP_LEARNING_MODE, VStr "close");
    (PropertyKeys.SLEEP_MODE, VStr "poweroff");
    (PropertyKeys.SLEEP_TIME, VNum 0);
    (PropertyKeys.SLEEP_LEARNING_MODE_COUNT, VNum 0);
    (PropertyKeys.EXTRA_MODE_SUPPORTED, VNum 0);
    (PropertyKeys.AUTO_DETECT, VNull);
    (PropertyKeys.LAST_BUTTON_PRESSED, VNull) ].

(** ** Effects: transport calls, timers, callbacks, update actions *)

(** The bound update methods of the accessory ([this.updateXxx]). *)
Inductive Updater : Type :=
| updateActiveState
| updateCurrentAirPurifierState
| updateIlluminance
| updateTargetAirPurifierState
| updateLockPhysicalControls
| updateRotationSpeed
| updateFilterState
| updateFilterChangeState
| updateAirQuality
| updatePM25
| updateTemperature
| updateHumidity
| updateLED
| updateBuzzer.

Definition Updater_eq_dec (a b : Updater) : {a = b} + {a <> b}.
Proof. decide equality. Defined.

Definition Updater_eqb (a b : Updater) : bool :=
  if Updater_eq_dec a b then true else false.

(** A thrown value / rejection reason. *)
Inductive Error : Type := MkError (message : string).

(** What a completion callback is called with: [callback()],
    [callback(null)] or [callback(err)]. *)
Inductive CbArg : Type :=
| CbNoArg
| CbNull
| CbErr (e : Error).

Definition cb_success (a : CbArg) : bool :=
  match a with
  | CbErr _ => false
  | _ => true
  end.

Inductive Event : Type :=
| EvSend (method : string) (params : list value)
| EvWait (ms : Z)
| EvCallback (cb : nat) (arg : CbArg)
| EvUpdate (u : Updater).

(** How a transport call settles. *)
Inductive Reply : Type :=
| Resolved (result : list value)
| Rejected (e : Error).

(** The MiIO client: answers a call given everything that happened before. *)
Definition Client : Type := list Event -> string -> list value -> Reply.

(** The accessory's mutable field [this.status] and the event trace. *)
Record World : Type := mkWorld { status : Obj; trace : list Event }.

Inductive Outcome (A : Type) : Type :=
| Ok (a : A)
| Throw (e : Error).
Arguments Ok {A} a.
Arguments Throw {A} e.

Definition M (A : Type) : Type := Client -> World -> World * Outcome A.

Definition ret {A} (a : A) : M A := fun _ w => (w, Ok a).

Definition bind {A B} (m : M A) (k : A -> M B) : M B :=
  fun c w =>
    match m c w with
    | (w', Ok a) => k a c w'
    | (w', Throw e) => (w', Throw e)
    end.

(** [try { m } catch (err) { h err }]. *)
Definition try_catch {A} (m : M A) (h : Error -> M A) : M A :=
  fun c w =>
    match m c w with
    | (w', Ok a) => (w', Ok a)
    | (w', Throw e) => h e c w'
    end.

Notation "x <- m ;; k" := (bind m (fun x => k))
  (at level 61, m at next level, right associativity).
Notation "m ;;; k" := (bind m (fun _ => k))
  (at level 61, right associativity).

Definition emit (e : Event) : M unit :=
  fun _ w => (mkWorld (status w) (trace w ++ [e]), Ok tt).

Definition getStatus : M Obj := fun _ w => (w, Ok (status w)).

Definition setStatus (o : Obj) : M unit :=
  fun _ w => (mkWorld o (trace w), Ok tt).

(** [await client.send(method, params)] (also [simpleSend]): the call goes
    out, then the client's reply settles it. *)
Definition send (method : string) (params : list value) : M (list value) :=
  fun c w =>
    let w' := mkWorld (status w) (trace w ++ [EvSend method params]) in
    match c (trace w) method params with
    | Resolved r => (w', Ok r)
    | Rejected e => (w', Throw e)
    end.

(** [await wait(timeout)]. *)
Definition wait (timeout : Z) : M unit := emit (EvWait timeout).

Module AirPurifierDevice.

Definition propertyKeys : list string := keys DEFAULT_VALUE.
Definition chunk1 : list string := firstn 15 propertyKeys.
Definition chunk2 : list string := skipn 15 propertyKeys.

Definition status : M Obj :=
  response1 <- send "get_prop" (map VStr chunk1) ;;
  response2 <- send "get_prop" (map VStr chunk2) ;;
  ret (fromEntries (zip chunk1 response1 ++ zip chunk2 response2)).

Definition setPower (on : string) : M (list value) :=
  send "set_power" [VStr on].

Definition setMode (mode : string) : M (list value) :=
  send "set_mode" [VStr mode].

Definition setPhysicalLock (on : string) : M (list value) :=
  send "set_child_lock" [VStr on].

Definition setFavoriteSpeedLevel (speed : Z) : M (list value) :=
  send "set_level_favorite" [VNum speed].

Definition setLED (on : string) : M (list value) :=
  send "set_led" [VStr on].

Definition setBuzzer (on : string) : M (list value) :=
  send "set_buzzer" [VStr on].

End AirPurifierDevice.

(** ** accessory.ts *)

(** [Characteristic.Active.ACTIVE] of the HomeKit library. *)
Definition ACTIVE : value := VNum 1.

(** The update actions fired by a change of [key]. *)
Definition valueUpdater (key : string) : list Updater :=
  if String.eqb key PropertyKeys.POWER then
    [updateActiveState; updateCurrentAirPurifierState]
  else if String.eqb key PropertyKeys.MODE then
    [updateTargetAirPurifierState; updateRotationSpeed]
  else if String.eqb key PropertyKeys.CHILD_LOCK then
    [updateLockPhysicalControls]
  else if String.eqb key PropertyKeys.MOTOR_SPEED then
    [updateRotationSpeed]
  else if String.eqb key PropertyKeys.FILTER_LIFE_REMAINING then
    [updateFilterState; updateFilterState]
  else if String.eqb key PropertyKeys.AIR_QUALITY_INDEX then
    [updateAirQuality; updatePM25]
  else if String.eqb key PropertyKeys.TEMPERATURE then
    [updateTemperature]
  else if String.eqb key PropertyKeys.HUMIDITY then
    [updateHumidity]
  else if String.eqb key PropertyKeys.LED then
    [updateLockPhysicalControls]
  else if String.eqb key PropertyKeys.BUZZER then
    [updateLockPhysicalControls]
  else if String.eqb key PropertyKeys.ILLUMINANCE then
    [updateIlluminance]
  else [].

(** One step of the [reduce] callback in [updateState]. *)
Definition reducer (status : Obj) (updaters : list Updater)
    (entry : string * value) : list Updater :=
  let propertyKey := fst entry in
  let value := snd entry in
  let currentUpdaters :=
    if strict_neq (prop_get status propertyKey) value
    then valueUpdater propertyKey
    else [] in
  currentUpdaters ++ updaters.

(** [Object.entries(newState).reduce(..., [])] *)
Definition itemsNeedUpdate (status newState : Obj) : list Updater :=
  fold_left (reducer status) (entries newState) [].

(** [fns.forEach(fn => fn())] *)
Fixpoint forEach (fns : list Updater) : M unit :=
  match fns with
  | [] => ret tt
  | fn :: rest => emit (EvUpdate fn) ;;; forEach rest
  end.

Definition updateState : M unit :=
  newState <- AirPurifierDevice.status ;;
  this_status <- getStatus ;;
  let items := itemsNeedUpdate this_status newState in
  setStatus newState ;;;
  forEach items.

Definition setActiveState (state : value) (callback : nat) : M unit :=
  let targetState := if strict_eq ACTIVE state then "on" else "off" in
  this_status <- getStatus ;;
  if strict_eq (VStr targetState) (prop_get this_status PropertyKeys.POWER)
  then emit (EvCallback callback CbNoArg)
  else
    try_catch
      (AirPurifierDevice.setPower targetState ;;;
       emit (EvCallback callback CbNull))
      (fun err => emit (EvCallback callback (CbErr err))).

(** [Math.ceil(speed / 6.25)], in exact rational arithmetic. *)
Definition favoriteLevel (speed : Q) : Z := Qceiling (speed / (25 # 4)).

Definition setRotationSpeedImpl (speed : Q) (callback : nat) : M unit :=
  try_catch
    (this_status <- getStatus ;;
     (if strict_neq (prop_get this_status PropertyKeys.MODE) (VStr "favorite")
      then AirPurifierDevice.setMode "favorite" ;;; wait 300
      else ret tt) ;;;
     let level := favoriteLevel speed in
     AirPurifierDevice.setFavoriteSpeedLevel level ;;;
     emit (EvCallback callback CbNull))
    (fun err => emit (EvCallback callback (CbErr err))).

(** ** The debounced rotation-speed command *)

Section Debounce.

Variable Args : Type.
Variable W : Z.

(** Modelled from the spec: lodash's [debounce(func, wait)], imported by
    [accessory.ts] but not part of the sources.  "[submit(value)] schedules
    [apply(latest value)] to run after W elapsed with no further [submit]
    calls; any [submit] call within the window cancels the previously
    scheduled invocation and reschedules with the new value."  The state is
    the scheduled invocation, if any: its due time and its arguments. *)
Definition Scheduled : Type := option (Z * Args).

Definition submit (now : Z) (args : Args) (s : Scheduled) : Scheduled :=
  Some (now + W, args)%Z.

(** Modelled from the spec: the invocations of [func] that lodash's
    [debounce] makes for time-stamped submissions (in arrival order): a
    scheduled invocation whose due time has come when the next submission
    arrives has run; otherwise the submission replaces it.  After the last
    submission the scheduled invocation runs when due. *)
Fixpoint applied (subs : list (Z * Args)) (s : Scheduled) : list (Z * Args) :=
  match subs with
  | [] =>
      match s with
      | Some due => [due]
      | None => []
      end
  | (now, args) :: rest =>
      match s with
      | Some (due, args0) =>
          if (due <=? now)%Z
          then (due, args0) :: applied rest (submit now args s)
          else applied rest (submit now args s)
      | None => applied rest (submit now args s)
      end
  end.

End Debounce.

Arguments applied {Args} W subs s.
Arguments submit {Args} W now args s.

Fixpoint applyAll (calls : list (Z * (Q * nat))) : M unit :=
  match calls with
  | [] => ret tt
  | (_, (speed, callback)) :: rest =>
      setRotationSpeedImpl speed callback ;;; applyAll rest
  end.

(** [setRotationSpeed = debounce(this.setRotationSpeedImpl, 100)], driven by
    a sequence of calls [(time, (speed, callback))]. *)
Definition setRotationSpeed (subs : list (Z * (Q * nat))) : M unit :=
  applyAll (applied 100 subs None).

(** ** Observations on a run *)

(** The events an operation appends to the trace. *)
Definition events_of {A} (m : M A) (c : Client) (w : World) : list Event :=
  skipn (List.length (trace w)) (trace (fst (m c w))).

(** The update actions invoked, in order. *)
Fixpoint dispatched (evs : list Event) : list Updater :=
  match evs with
  | [] => []
  | EvUpdate u :: rest => u :: dispatched rest
  | _ :: rest => dispatched rest
  end.

(** The transport commands issued, in order. *)
Fixpoint sent (evs : list Event) : list (string * list value) :=
  match evs with
  | [] => []
  | EvSend method params :: rest => (method, params) :: sent rest
  | _ :: rest => sent rest
  end.

(** The completion signals delivered, in order. *)
Fixpoint signals (evs : list Event) : list (nat * CbArg) :=
  match evs with
  | [] => []
  | EvCallback cb arg :: rest => (cb, arg) :: signals rest
  | _ :: rest => signals rest
  end.

(** The test of [updateState] on one entry of the fetched snapshot. *)
Definition changed (status : Obj) (entry : string * value) : bool :=
  strict_neq (prop_get status (fst entry)) (snd entry).

(** The keys of the fetched snapshot whose value differs, in entry order. *)
Definition changedKeys (status newState : Obj) : list string :=
  map fst (filter (changed status) (entries newState)).

(** Whether [key]'s table entry lists the action [u]. *)
Definition triggers (u : Updater) (key : string) : bool :=
  existsb (Updater_eqb u) (valueUpdater key).

(** ** Sample clients and worlds *)

(** Answers the first call with [r1] and every later one with [r2]. *)
Definition replyWith (r1 r2 : list value) : Client :=
  fun history _ _ =>
    match history with
    | [] => Resolved r1
    | _ => Resolved r2
    end.

(** Every call is rejected. *)
Definition offline : Client :=
  fun _ _ _ => Rejected (MkError "timeout").

(** Every call resolves with an empty result. *)
Definition acking : Client :=
  fun _ _ _ => Resolved [].

(** The accessory right after construction. *)
Definition initial : World := mkWorld DEFAULT_VALUE [].

(** The default values chunk by chunk, as a device would report them. *)
Definition defaults1 : list value := map snd (firstn 15 DEFAULT_VALUE).
Definition defaults2 : list value := map snd (skipn 15 DEFAULT_VALUE).

(** Replace the value at position [i]. *)
Fixpoint replace_nth {A} (i : nat) (x : A) (l : list A) : list A :=
  match l, i with
  | [], _ => []
  | _ :: l', O => x :: l'
  | y :: l', S i' => y :: replace_nth i' x l'
  end.

(** Devices that report the defaults except for a few properties. *)
Definition favoriteAt1000 : Client :=
  replyWith
    (replace_nth 5 (VStr "favorite") (replace_nth 10 (VNum 1000) defaults1))
    defaults2.

Definition filterAt80 : Client :=
  replyWith (replace_nth 7 (VNum 80) defaults1) defaults2.

Definition poweredOn : Client :=
  replyWith (replace_nth 0 (VStr "on") (replace_nth 1 (VNum 12) defaults1))
    defaults2.

Definition ledOn : Client :=
  replyWith (replace_nth 13 (VStr "on") defaults1) defaults2.

(** ** accessory.ts: the other command handlers and update methods *)

(** Constants of the HomeKit library used by the accessory. *)
Definition INACTIVE : value := VNum 0.

Module CurrentAirPurifierState.
Definition INACTIVE : value := VNum 0.
Definition PURIFYING_AIR : value := VNum 2.
End CurrentAirPurifierState.

Module TargetAirPurifierState.
Definition MANUAL : value := VNum 0.
Definition AUTO : value := VNum 1.
End TargetAirPurifierState.

Module LockPhysicalControls.
Definition CONTROL_LOCK_DISABLED : value := VNum 0.
Definition CONTROL_LOCK_ENABLED : value := VNum 1.
End LockPhysicalControls.

Module AirQuality.
Definition EXCELLENT : Z := 1.
Definition GOOD : Z := 2.
Definition FAIR : Z := 3.
Definition INFERIOR : Z := 4.
Definition POOR : Z := 5.
End AirQuality.

Definition aqiToQuality (aqi : Z) : Z :=
  if (aqi >=? 200)%Z then AirQuality.POOR
  else if (aqi >=? 150)%Z then AirQuality.INFERIOR
  else if (aqi >=? 100)%Z then AirQuality.FAIR
  else if (aqi >=? 50)%Z then AirQuality.GOOD
  else AirQuality.EXCELLENT.

Definition MIN_MOTOR_SPEED : Z := 655.
Definition MAX_MOTOR_SPEED : Z := 1605.

(** The value [updateActiveState] passes to [updateValue]. *)
Definition activeStateValue (status : Obj) : value :=
  if strict_eq (prop_get status PropertyKeys.POWER) (VStr "on")
  then ACTIVE else INACTIVE.

(** The value [updateCurrentAirPurifierState] passes to [updateValue]. *)
Definition currentAirPurifierStateValue (status : Obj) : value :=
  if strict_eq (prop_get status PropertyKeys.POWER) (VStr "on")
  then CurrentAirPurifierState.PURIFYING_AIR
  else CurrentAirPurifierState.INACTIVE.

(** The value [updateTargetAirPurifierState] passes to [updateValue]. *)
Definition targetAirPurifierStateValue (status : Obj) : value :=
  if strict_eq (prop_get status PropertyKeys.MODE) (VStr "favorite")
  then TargetAirPurifierState.MANUAL
  else TargetAirPurifierState.AUTO.

(** The value [updateLockPhysicalControls] passes to [updateValue]. *)
Definition lockPhysicalControlsValue (status : Obj) : value :=
  if strict_eq (prop_get status PropertyKeys.CHILD_LOCK) (VStr "on")
  then LockPhysicalControls.CONTROL_LOCK_ENABLED
  else LockPhysicalControls.CONTROL_LOCK_DISABLED.

(** The value [updateRotationSpeed] passes to [updateValue] when the motor
    speed of the snapshot is the number [motorSpeed], in exact rational
    arithmetic. *)
Definition rotationSpeedValue (motorSpeed : Z) : Q :=
  let span := (MAX_MOTOR_SPEED - MIN_MOTOR_SPEED)%Z in
  ((inject_Z motorSpeed - inject_Z MIN_MOTOR_SPEED) / inject_Z span) * 100.

Definition setTargetAirPurifierState (state : value) (callback : nat) : M unit :=
  let mode :=
    if strict_eq state TargetAirPurifierState.AUTO then "auto" else "favorite" in
  try_catch
    (AirPurifierDevice.setMode mode ;;;
     emit (EvCallback callback CbNull))
    (fun err => emit (EvCallback callback (CbErr err))).

Definition setLockPhysicalControls (state : value) (callback : nat) : M unit :=
  try_catch
    (let on :=
       if strict_eq state LockPhysicalControls.CONTROL_LOCK_ENABLED
       then "on" else "off" in
     AirPurifierDevice.setPhysicalLock on ;;;
     emit (EvCallback callback CbNoArg))
    (fun err => emit (EvCallback callback (CbErr err))).

Definition setLED (state : value) (callback : nat) : M unit :=
  try_catch
    (AirPurifierDevice.setLED (if truthy state then "on" else "off") ;;;
     emit (EvCallback callback CbNull))
    (fun err => emit (EvCallback callback (CbErr err))).

Definition setBuzzer (state : value) (callback : nat) : M unit :=
  try_catch
    (AirPurifierDevice.setBuzzer (if truthy state then "on" else "off") ;;;
     emit (EvCallback callback CbNull))
    (fun err => emit (EvCallback callback (CbErr err))).

(** The services [getServices] builds. *)
Inductive Service : Type :=
| AirPurifier
| AccessoryInformation
| AirQualitySensor
| TemperatureSensor
| LightSensor
| Lightbulb
| HumiditySensor
| Switch.

Definition Service_eq_dec (a b : Service) : {a = b} + {a <> b}.
Proof. decide equality. Defined.

Record PurifierConfig : Type :=
  mkConfig { enableLED : bool; enableBuzzer : bool }.

(** [services.filter(maybeService => !!maybeService)] *)
Fixpoint definedServices (services : list (option Service)) : list Service :=
  match services with
  | [] => []
  | Some service :: rest => service :: definedServices rest
  | None :: rest => definedServices rest
  end.

(** The array [getServices] returns. *)
Definition getServices (config : PurifierConfig) : list Service :=
  let airPurifierService := Some AirPurifier in
  let infoService := Some AccessoryInformation in
  let airQualityService := Some AirQualitySensor in
  let temperatureService := Some TemperatureSensor in
  let lightSensorService := Some LightSensor in
  let ledService := if enableLED config then Some Lightbulb else None in
  let humiditySensorService := Some HumiditySensor in
  let buzzerService := if enableBuzzer config then Some Switch else None in
  definedServices
    [airPurifierService; infoService; airQualityService; temperatureService;
     humiditySensorService; buzzerService; buzzerService; lightSensorService].

(** A command handler calls [callback] exactly once, as the last thing it
    does. *)
Definition signals_once (m : M unit) (callback : nat) : Prop :=
  forall (c : Client) (w : World),
    exists evs arg,
      events_of m c w = evs ++ [EvCallback callback arg] /\
      signals evs = [].

(** An operation leaves [this.status] as it found it. *)
Definition keeps_status {A} (m : M A) : Prop :=
  forall (c : Client) (w : World), status (fst (m c w)) = status w.

(** A device that answers each call with more values than keys. *)
Definition chatty : Client :=
  replyWith (defaults1 ++ [VNum 1]) (defaults2 ++ [VNum 2; VNum 3]).

(** ** General facts *)

Lemma skipn_length_app {A} (l l' : list A) :
  skipn (List.length l) (l ++ l') = l'.
Proof. induction l as [|x l IH]; simpl; auto. Qed.

Lemma dispatched_app (a b : list Event) :
  dispatched (a ++ b) = dispatched a ++ dispatched b.
Proof.
  induction a as [|e a IH]; simpl; auto.
  destruct e; simpl; auto. now rewrite IH.
Qed.

Lemma dispatched_updates (us : list Updater) :
  dispatched (map EvUpdate us) = us.
Proof. induction us as [|u us IH]; simpl; congruence. Qed.

Lemma forEach_run (fns : list Updater) (c : Client) (w : World) :
  forEach fns c w = (mkWorld (status w) (trace w ++ map EvUpdate fns), Ok tt).
Proof.
  revert w. induction fns as [|fn rest IH]; intros w.
  - simpl. unfold ret. rewrite app_nil_r. now destruct w.
  - simpl. unfold bind, emit. rewrite IH. cbn [status trace].
    now rewrite <- app_assoc.
Qed.

(** The fetch, by the way its two calls settle. *)
Lemma status_first_rejected (c : Client) (w : World) (e : Error) :
  c (trace w) "get_prop" (map VStr AirPurifierDevice.chunk1) = Rejected e ->
  AirPurifierDevice.status c w =
    (mkWorld (status w)
       (trace w ++ [EvSend "get_prop" (map VStr AirPurifierDevice.chunk1)]),
     Throw e).
Proof.
  intros H. unfold AirPurifierDevice.status, bind, send. now rewrite H.
Qed.

Lemma status_second_rejected (c : Client) (w : World) (r1 : list value) (e : Error) :
  c (trace w) "get_prop" (map VStr AirPurifierDevice.chunk1) = Resolved r1 ->
  c (trace w ++ [EvSend "get_prop" (map VStr AirPurifierDevice.chunk1)])
    "get_prop" (map VStr AirPurifierDevice.chunk2) = Rejected e ->
  AirPurifierDevice.status c w =
    (mkWorld (status w)
       (trace w ++ [EvSend "get_prop" (map VStr AirPurifierDevice.chunk1);
                    EvSend "get_prop" (map VStr AirPurifierDevice.chunk2)]),
     Throw e).
Proof.
  intros H1 H2. unfold AirPurifierDevice.status, bind, send.
  rewrite H1. cbn [status trace]. rewrite H2. now rewrite <- app_assoc.
Qed.

Lemma status_resolved (c : Client) (w : World) (r1 r2 : list value) :
  c (trace w) "get_prop" (map VStr AirPurifierDevice.chunk1) = Resolved r1 ->
  c (trace w ++ [EvSend "get_prop" (map VStr AirPurifierDevice.chunk1)])
    "get_prop" (map VStr AirPurifierDevice.chunk2) = Resolved r2 ->
  AirPurifierDevice.status c w =
    (mkWorld (status w)
       (trace w ++ [EvSend "get_prop" (map VStr AirPurifierDevice.chunk1);
                    EvSend "get_prop" (map VStr AirPurifierDevice.chunk2)]),
     Ok (fromEntries (zip AirPurifierDevice.chunk1 r1 ++
                      zip AirPurifierDevice.chunk2 r2))).
Proof.
  intros H1 H2. unfold AirPurifierDevice.status, bind, send, ret.
  rewrite H1. cbn [status trace]. rewrite H2. now rewrite <- app_assoc.
Qed.

(** The fetch only appends to the trace and never touches [this.status]. *)
Lemma status_extends (c : Client) (w : World) :
  exists evs,
    fst (AirPurifierDevice.status c w) = mkWorld (status w) (trace w ++ evs) /\
    dispatched evs = [].
Proof.
  destruct (c (trace w) "get_prop" (map VStr AirPurifierDevice.chunk1))
    as [r1|e1] eqn:H1.
  - destruct (c (trace w ++ [EvSend "get_prop" (map VStr AirPurifierDevice.chunk1)])
                "get_prop" (map VStr AirPurifierDevice.chunk2)) as [r2|e2] eqn:H2.
    + rewrite (status_resolved c w r1 r2 H1 H2). eexists; split; [reflexivity|reflexivity].
    + rewrite (status_second_rejected c w r1 e2 H1 H2).
      eexists; split; [reflexivity|reflexivity].
  - rewrite (status_first_rejected c w e1 H1).
    eexists; split; [reflexivity|reflexivity].
Qed.

(** A poll cycle, by the outcome of its fetch. *)
Lemma updateState_fetch_failed (c : Client) (w : World) (e : Error) :
  snd (AirPurifierDevice.status c w) = Throw e ->
  updateState c w = (fst (AirPurifierDevice.status c w), Throw e).
Proof.
  intros H. unfold updateState, bind.
  destruct (AirPurifierDevice.status c w) as [w' [a|e']]; simpl in *.
  - discriminate.
  - congruence.
Qed.

Lemma updateState_fetch_ok (c : Client) (w : World) (newState : Obj) :
  snd (AirPurifierDevice.status c w) = Ok newState ->
  updateState c w =
    (mkWorld newState
       (trace (fst (AirPurifierDevice.status c w)) ++
        map EvUpdate (itemsNeedUpdate (status w) newState)),
     Ok tt).
Proof.
  intros H. unfold updateState, bind.
  destruct (status_extends c w) as (evs & Hw & _).
  destruct (AirPurifierDevice.status c w) as [w' [a|e']]; simpl in *.
  - inversion H; subst a. subst w'.
    unfold getStatus, setStatus. cbn [status trace].
    now rewrite forEach_run.
  - discriminate.
Qed.

Lemma cycle_dispatched (c : Client) (w : World) (newState : Obj) :
  snd (AirPurifierDevice.status c w) = Ok newState ->
  dispatched (events_of updateState c w) = itemsNeedUpdate (status w) newState.
Proof.
  intros H. unfold events_of. rewrite (updateState_fetch_ok c w newState H).
  destruct (status_extends c w) as (evs & Hw & Hd).
  cbn [fst trace]. rewrite Hw. cbn [trace].
  rewrite <- app_assoc, skipn_length_app, dispatched_app, Hd.
  apply dispatched_updates.
Qed.

(** ** Objects built by [zip] and [fromEntries] *)

Lemma prop_get_set (o : Obj) (k k' : string) (v : value) :
  prop_get (prop_set o k v) k' =
    if String.eqb k k' then v else prop_get o k'.
Proof.
  induction o as [|[k0 w] o IH]; simpl.
  - destruct (String.eqb k k'); reflexivity.
  - destruct (String.eqb k0 k) eqn:E; simpl.
    + apply String.eqb_eq in E; subst k0.
      destruct (String.eqb k k'); reflexivity.
    + destruct (String.eqb k0 k') eqn:E'; [|apply IH].
      apply String.eqb_eq in E'; subst k0.
      rewrite String.eqb_sym, E. reflexivity.
Qed.

Lemma get_after_padding (vs : list value) (o : Obj) (k : string) :
  k <> "undefined" ->
  prop_get
    (fold_left (fun o e => prop_set o (toPropertyKey (fst e)) (snd e))
       (map (fun v => (None, v)) vs) o) k = prop_get o k.
Proof.
  intros Hk. revert o. induction vs as [|v vs IH]; intros o; simpl; auto.
  rewrite IH, prop_get_set.
  destruct (String.eqb "undefined" k) eqn:E; auto.
  apply String.eqb_eq in E. congruence.
Qed.

Lemma get_other_key (ks : list string) (vs : list value) (o : Obj) (k : string) :
  ~ In k ks -> k <> "undefined" ->
  prop_get
    (fold_left (fun o e => prop_set o (toPropertyKey (fst e)) (snd e))
       (zip ks vs) o) k = prop_get o k.
Proof.
  intros Hin Hk. revert vs o.
  induction ks as [|k0 ks IH]; intros vs o.
  - simpl. now apply get_after_padding.
  - assert (Hne : String.eqb k0 k = false).
    { apply String.eqb_neq. intros ->. apply Hin. now left. }
    assert (Hin' : ~ In k ks) by (intros H; apply Hin; now right).
    destruct vs as [|v vs]; simpl; rewrite (IH Hin'), prop_get_set, Hne;
      reflexivity.
Qed.

Lemma get_zipped_key (ks : list string) :
  NoDup ks -> ~ In "undefined" ks ->
  forall (vs : list value) (o : Obj) (i : nat) (k : string),
    nth_error ks i = Some k ->
    prop_get
      (fold_left (fun o e => prop_set o (toPropertyKey (fst e)) (snd e))
         (zip ks vs) o) k = nth i vs VUndefined.
Proof.
  induction ks as [|k0 ks IH]; intros Hnd Hu vs o i k Hi.
  - destruct i; discriminate.
  - inversion Hnd as [|? ? Hk0 Hnd']; subst.
    assert (Hu' : ~ In "undefined" ks) by (intros H; apply Hu; now right).
    destruct i as [|i]; simpl in Hi.
    + inversion Hi; subst k0.
      assert (Hk : k <> "undefined") by (intros ->; apply Hu; now left).
      destruct vs as [|v vs]; simpl;
        rewrite (get_other_key ks _ _ k Hk0 Hk), prop_get_set, String.eqb_refl;
        reflexivity.
    + destruct vs as [|v vs]; simpl.
      * rewrite (IH Hnd' Hu' [] _ i k Hi). now destruct i.
      * apply (IH Hnd' Hu' vs _ i k Hi).
Qed.

Lemma propertyKeys_NoDup : NoDup AirPurifierDevice.propertyKeys.
Proof.
  replace AirPurifierDevice.propertyKeys
    with (nodup string_dec AirPurifierDevice.propertyKeys)
    by (vm_compute; reflexivity).
  apply NoDup_nodup.
Qed.

Lemma propertyKeys_chunks :
  AirPurifierDevice.propertyKeys =
    AirPurifierDevice.chunk1 ++ AirPurifierDevice.chunk2.
Proof. symmetry. apply firstn_skipn. Qed.

Lemma chunk1_NoDup : NoDup AirPurifierDevice.chunk1.
Proof.
  pose proof propertyKeys_NoDup as H. rewrite propertyKeys_chunks in H.
  now apply NoDup_app_remove_r in H.
Qed.

Lemma chunk2_NoDup : NoDup AirPurifierDevice.chunk2.
Proof.
  pose proof propertyKeys_NoDup as H. rewrite propertyKeys_chunks in H.
  now apply NoDup_app_remove_l in H.
Qed.

Lemma propertyKeys_defined : ~ In "undefined" AirPurifierDevice.propertyKeys.
Proof.
  intros H. vm_compute in H.
  repeat (destruct H as [H|H]; [discriminate|]). exact H.
Qed.

Lemma chunks_disjoint (k : string) :
  In k AirPurifierDevice.chunk1 -> ~ In k AirPurifierDevice.chunk2.
Proof.
  intros H1 H2. vm_compute in H1.
  repeat (destruct H1 as [H1|H1];
          [subst k; vm_compute in H2;
           repeat (destruct H2 as [H2|H2]; [discriminate|]); exact H2|]).
  exact H1.
Qed.

(** ** The fetch: [AirPurifierDevice.status] *)

(** C2, as stated, fails: the key list of [DEFAULT_VALUE] has 28 keys, not
    27, and the second call of a fetch carries the 13 keys at positions
    [15,28), not the 12 keys at positions [15,27). *)
Lemma fetch_key_list_is_not_27 :
  List.length AirPurifierDevice.propertyKeys <> 27%nat /\
  sent (events_of AirPurifierDevice.status (replyWith defaults1 defaults2) initial)
    <> [("get_prop", map VStr (firstn 15 AirPurifierDevice.propertyKeys));
        ("get_prop",
         map VStr (firstn (27 - 15) (skipn 15 AirPurifierDevice.propertyKeys)))].
Proof.
  split.
  - vm_compute. discriminate.
  - vm_compute. intros H. inversion H.
Qed.

(** C2 (amended): a fetch whose two calls resolve with 15 and 13 values
    issues exactly 2 batch reads over the key list of 28 keys, the first with
    the keys at positions [0,15) and the second with those at [15,28); the
    snapshot lists the keys in their original order, each paired with the
    value at the same position of its chunk's result. *)
Theorem fetch_two_chunks (c : Client) (w : World) (r1 r2 : list value) :
  c (trace w) "get_prop" (map VStr AirPurifierDevice.chunk1) = Resolved r1 ->
  c (trace w ++ [EvSend "get_prop" (map VStr AirPurifierDevice.chunk1)])
    "get_prop" (map VStr AirPurifierDevice.chunk2) = Resolved r2 ->
  List.length r1 = 15%nat ->
  List.length r2 = 13%nat ->
  List.length AirPurifierDevice.propertyKeys = 28%nat /\
  sent (events_of AirPurifierDevice.status c w) =
    [("get_prop", map VStr (firstn 15 AirPurifierDevice.propertyKeys));
     ("get_prop", map VStr (skipn 15 AirPurifierDevice.propertyKeys))] /\
  List.length (skipn 15 AirPurifierDevice.propertyKeys) = 13%nat /\
  snd (AirPurifierDevice.status c w) =
    Ok (combine (firstn 15 AirPurifierDevice.propertyKeys) r1 ++
        combine (skipn 15 AirPurifierDevice.propertyKeys) r2) /\
  keys (combine (firstn 15 AirPurifierDevice.propertyKeys) r1 ++
        combine (skipn 15 AirPurifierDevice.propertyKeys) r2) =
    AirPurifierDevice.propertyKeys.
Proof.
  intros H1 H2 L1 L2.
  unfold events_of. rewrite (status_resolved c w r1 r2 H1 H2).
  cbn [fst snd trace]. rewrite skipn_length_app.
  do 15 (destruct r1 as [|? r1]; [discriminate|]).
  destruct r1; [|discriminate].
  do 13 (destruct r2 as [|? r2]; [discriminate|]).
  destruct r2; [|discriminate].
  repeat split; reflexivity.
Qed.

Lemma fetch_two_chunks_witness :
  List.length AirPurifierDevice.propertyKeys = 28%nat /\
  sent (events_of AirPurifierDevice.status (replyWith defaults1 defaults2) initial) =
    [("get_prop", map VStr (firstn 15 AirPurifierDevice.propertyKeys));
     ("get_prop", map VStr (skipn 15 AirPurifierDevice.propertyKeys))] /\
  List.length (skipn 15 AirPurifierDevice.propertyKeys) = 13%nat /\
  snd (AirPurifierDevice.status (replyWith defaults1 defaults2) initial) =
    Ok (combine (firstn 15 AirPurifierDevice.propertyKeys) defaults1 ++
        combine (skipn 15 AirPurifierDevice.propertyKeys) defaults2) /\
  keys (combine (firstn 15 AirPurifierDevice.propertyKeys) defaults1 ++
        combine (skipn 15 AirPurifierDevice.propertyKeys) defaults2) =
    AirPurifierDevice.propertyKeys.
Proof.
  apply (fetch_two_chunks (replyWith defaults1 defaults2) initial
           defaults1 defaults2); reflexivity.
Defined.

(** C3, as stated, fails: a first chunk answered with one value instead of
    15 still yields a snapshot, with the unanswered keys [undefined], and the
    poll cycle stores it. *)
Lemma short_reply_yields_snapshot :
  List.length [VStr "on"] <> List.length AirPurifierDevice.chunk1 /\
  exists snap,
    snd (AirPurifierDevice.status (replyWith [VStr "on"] defaults2) initial)
      = Ok snap /\
    prop_get snap PropertyKeys.MODE = VUndefined /\
    status (fst (updateState (replyWith [VStr "on"] defaults2) initial)) = snap.
Proof.
  split.
  - vm_compute. discriminate.
  - eexists. split; [vm_compute; reflexivity|]. split; reflexivity.
Qed.

(** C3 (amended): whenever both chunk calls resolve, whatever the lengths of
    the returned value lists, the fetch produces a snapshot: each key is
    paired with the value at its position in its chunk's result, or with
    [undefined] where the result is too short, and the poll cycle stores that
    snapshot. *)
Theorem fetch_ignores_lengths (c : Client) (w : World) (r1 r2 : list value) :
  c (trace w) "get_prop" (map VStr AirPurifierDevice.chunk1) = Resolved r1 ->
  c (trace w ++ [EvSend "get_prop" (map VStr AirPurifierDevice.chunk1)])
    "get_prop" (map VStr AirPurifierDevice.chunk2) = Resolved r2 ->
  exists snap,
    snd (AirPurifierDevice.status c w) = Ok snap /\
    (forall i k, nth_error AirPurifierDevice.chunk1 i = Some k ->
                 prop_get snap k = nth i r1 VUndefined) /\
    (forall i k, nth_error AirPurifierDevice.chunk2 i = Some k ->
                 prop_get snap k = nth i r2 VUndefined) /\
    status (fst (updateState c w)) = snap.
Proof.
  intros H1 H2.
  pose proof (status_resolved c w r1 r2 H1 H2) as Hs.
  eexists. split; [rewrite Hs; reflexivity|].
  assert (Hu1 : ~ In "undefined" AirPurifierDevice.chunk1).
  { intros H. apply propertyKeys_defined. rewrite propertyKeys_chunks.
    apply in_or_app. now left. }
  assert (Hu2 : ~ In "undefined" AirPurifierDevice.chunk2).
  { intros H. apply propertyKeys_defined. rewrite propertyKeys_chunks.
    apply in_or_app. now right. }
  split; [|split].
  - intros i k Hi. unfold fromEntries. rewrite fold_left_app.
    assert (Hin : In k AirPurifierDevice.chunk1) by (eapply nth_error_In; eauto).
    rewrite get_other_key.
    + now apply get_zipped_key; auto using chunk1_NoDup.
    + now apply chunks_disjoint.
    + intros ->. now apply Hu1.
  - intros i k Hi. unfold fromEntries. rewrite fold_left_app.
    now apply get_zipped_key; auto using chunk2_NoDup.
  - rewrite (updateState_fetch_ok c w _ (f_equal snd Hs)). reflexivity.
Qed.

Lemma fetch_ignores_lengths_witness :
  exists snap,
    snd (AirPurifierDevice.status (replyWith [VStr "on"] defaults2) initial)
      = Ok snap /\
    (forall i k, nth_error AirPurifierDevice.chunk1 i = Some k ->
                 prop_get snap k = nth i [VStr "on"] VUndefined) /\
    (forall i k, nth_error AirPurifierDevice.chunk2 i = Some k ->
                 prop_get snap k = nth i defaults2 VUndefined) /\
    status (fst (updateState (replyWith [VStr "on"] defaults2) initial)) = snap.
Proof.
  apply (fetch_ignores_lengths (replyWith [VStr "on"] defaults2) initial
           [VStr "on"] defaults2); reflexivity.
Defined.

(** ** The poll cycle: [updateState] *)

(** C4: when the fetch of a poll cycle fails, [this.status] is left as it
    was and the cycle invokes no update action. *)
Theorem failed_fetch_leaves_status (c : Client) (w : World) (e : Error) :
  snd (AirPurifierDevice.status c w) = Throw e ->
  status (fst (updateState c w)) = status w /\
  dispatched (events_of updateState c w) = [] /\
  snd (updateState c w) = Throw e.
Proof.
  intros H. unfold events_of. rewrite (updateState_fetch_failed c w e H).
  destruct (status_extends c w) as (evs & Hw & Hd).
  cbn [fst snd]. rewrite Hw. cbn [status trace].
  rewrite skipn_length_app. auto.
Qed.

Lemma failed_fetch_leaves_status_witness :
  status (fst (updateState offline initial)) = status initial /\
  dispatched (events_of updateState offline initial) = [] /\
  snd (updateState offline initial) = Throw (MkError "timeout").
Proof.
  apply (failed_fetch_leaves_status offline initial (MkError "timeout")).
  reflexivity.
Defined.

(** The [reduce] of [updateState] puts the actions of each changed entry in
    front of those collected so far. *)
Lemma reduce_prepends (st : Obj) (es : list (string * value)) (acc : list Updater) :
  fold_left (reducer st) es acc =
    flat_map valueUpdater (rev (map fst (filter (changed st) es))) ++ acc.
Proof.
  revert acc. induction es as [|e es IH]; intros acc; simpl; auto.
  rewrite IH. unfold reducer. fold (changed st e).
  destruct (changed st e); simpl.
  - rewrite flat_map_app. simpl. now rewrite app_nil_r, <- app_assoc.
  - reflexivity.
Qed.

Lemma itemsNeedUpdate_changedKeys (st newState : Obj) :
  itemsNeedUpdate st newState =
    flat_map valueUpdater (rev (changedKeys st newState)).
Proof.
  unfold itemsNeedUpdate, changedKeys. rewrite reduce_prepends.
  apply app_nil_r.
Qed.

Lemma prop_get_entry (o : Obj) (k : string) (v : value) :
  NoDup (keys o) -> In (k, v) o -> prop_get o k = v.
Proof.
  induction o as [|[k0 v0] o IH]; intros Hnd Hin; simpl in *.
  - contradiction.
  - inversion Hnd as [|? ? Hk0 Hnd']; subst.
    destruct Hin as [Heq|Hin].
    + inversion Heq; subst. now rewrite String.eqb_refl.
    + destruct (String.eqb k0 k) eqn:E.
      * apply String.eqb_eq in E; subst k0. exfalso. apply Hk0.
        change k with (fst (k, v)). now apply in_map.
      * now apply IH.
Qed.

Lemma filter_keys (l : list (string * value))
    (P : string * value -> bool) (Q : string -> bool) :
  (forall e, In e l -> P e = Q (fst e)) ->
  map fst (filter P l) = filter Q (map fst l).
Proof.
  induction l as [|e l IH]; intros H; simpl; auto.
  rewrite <- (H e (or_introl eq_refl)).
  destruct (P e); simpl; rewrite IH; auto; intros e' He'; apply H; now right.
Qed.

Lemma changedKeys_by_key (st newState : Obj) :
  NoDup (keys newState) ->
  changedKeys st newState =
    filter (fun k => strict_neq (prop_get st k) (prop_get newState k))
      (keys newState).
Proof.
  intros Hnd. unfold changedKeys, keys, entries. apply filter_keys.
  intros [k v] Hin. unfold changed. simpl.
  now rewrite (prop_get_entry newState k v Hnd Hin).
Qed.

(** Apart from the filter entry, no table entry lists an action twice. *)
Lemma valueUpdater_count (u : Updater) (key : string) :
  u <> updateFilterState ->
  count_occ Updater_eq_dec (valueUpdater key) u =
    if triggers u key then 1%nat else 0%nat.
Proof.
  intros Hu. unfold triggers, valueUpdater.
  repeat match goal with
         | |- context [String.eqb key ?k] => destruct (String.eqb key k)
         end;
    destruct u; try reflexivity; congruence.
Qed.

Lemma reduce_count (u : Updater) (st : Obj) (es : list (string * value))
    (acc : list Updater) :
  u <> updateFilterState ->
  count_occ Updater_eq_dec (fold_left (reducer st) es acc) u =
    (List.length (filter (triggers u) (map fst (filter (changed st) es)))
     + count_occ Updater_eq_dec acc u)%nat.
Proof.
  intros Hu. revert acc. induction es as [|e es IH]; intros acc; simpl; auto.
  rewrite IH. unfold reducer. fold (changed st e).
  destruct (changed st e); simpl; auto.
  rewrite count_occ_app, (valueUpdater_count u (fst e) Hu).
  destruct (triggers u (fst e)); simpl; lia.
Qed.

(** The actions for LED and buzzer never appear in the table. *)
Lemma valueUpdater_never_led_buzzer (key : string) :
  ~ In updateLED (valueUpdater key) /\ ~ In updateBuzzer (valueUpdater key).
Proof.
  unfold valueUpdater.
  repeat match goal with
         | |- context [String.eqb key ?k] => destruct (String.eqb key k)
         end;
    split; simpl; intuition discriminate.
Qed.

Lemma itemsNeedUpdate_In (u : Updater) (st newState : Obj) :
  In u (itemsNeedUpdate st newState) <->
  exists e, In e (entries newState) /\ changed st e = true /\
            In u (valueUpdater (fst e)).
Proof.
  rewrite itemsNeedUpdate_changedKeys, in_flat_map. unfold changedKeys. split.
  - intros (k & Hk & Hu). apply in_rev in Hk. apply in_map_iff in Hk.
    destruct Hk as (e & <- & He). apply filter_In in He. destruct He.
    exists e. auto.
  - intros (e & He & Hc & Hu). exists (fst e). split; auto.
    apply -> in_rev. apply in_map. apply filter_In. auto.
Qed.

(** C1, as stated, fails: a cycle in which the mode and the motor speed both
    changed invokes [updateRotationSpeed] twice (and a change of the filter
    life invokes [updateFilterState] twice). *)
Lemma poll_cycle_repeats_actions :
  dispatched (events_of updateState favoriteAt1000 initial) =
    [updateRotationSpeed; updateTargetAirPurifierState; updateRotationSpeed] /\
  ~ NoDup (dispatched (events_of updateState favoriteAt1000 initial)) /\
  ~ NoDup (dispatched (events_of updateState filterAt80 initial)).
Proof.
  assert (H1 : dispatched (events_of updateState favoriteAt1000 initial) =
               [updateRotationSpeed; updateTargetAirPurifierState;
                updateRotationSpeed]) by (vm_compute; reflexivity).
  assert (H2 : dispatched (events_of updateState filterAt80 initial) =
               [updateFilterState; updateFilterState])
    by (vm_compute; reflexivity).
  split; [exact H1|]. rewrite H1, H2. split; intros H.
  - inversion H as [|? ? Hin _]. apply Hin. simpl. auto.
  - inversion H as [|? ? Hin _]. apply Hin. simpl. auto.
Qed.

(** C1 (amended): the update actions of a poll cycle are not deduplicated
    across keys: an action (other than the filter-state update) is invoked
    once for every changed key whose table entry lists it. *)
Theorem poll_cycle_action_count (c : Client) (w : World) (newState : Obj)
    (u : Updater) :
  snd (AirPurifierDevice.status c w) = Ok newState ->
  u <> updateFilterState ->
  count_occ Updater_eq_dec (dispatched (events_of updateState c w)) u =
    List.length (filter (triggers u) (changedKeys (status w) newState)).
Proof.
  intros Hf Hu. rewrite (cycle_dispatched c w newState Hf).
  unfold itemsNeedUpdate, changedKeys.
  rewrite (reduce_count u (status w) (entries newState) [] Hu).
  simpl. lia.
Qed.

Lemma poll_cycle_action_count_witness :
  count_occ Updater_eq_dec
    (dispatched (events_of updateState favoriteAt1000 initial))
    updateRotationSpeed =
  List.length
    (filter (triggers updateRotationSpeed)
       (changedKeys (status initial)
          (combine AirPurifierDevice.propertyKeys
             (replace_nth 5 (VStr "favorite")
                (replace_nth 10 (VNum 1000) defaults1) ++ defaults2)))).
Proof.
  apply (poll_cycle_action_count favoriteAt1000 initial).
  - reflexivity.
  - discriminate.
Defined.

(** C5, as stated, fails: power is declared before the air-quality index,
    yet when both changed the actions of the air-quality index run first. *)
Lemma poll_cycle_runs_later_keys_first :
  AirPurifierDevice.propertyKeys =
    PropertyKeys.POWER :: PropertyKeys.AIR_QUALITY_INDEX ::
    skipn 2 AirPurifierDevice.propertyKeys /\
  changedKeys (status initial)
    (combine AirPurifierDevice.propertyKeys
       (replace_nth 0 (VStr "on") (replace_nth 1 (VNum 12) defaults1)
        ++ defaults2)) =
    [PropertyKeys.POWER; PropertyKeys.AIR_QUALITY_INDEX] /\
  dispatched (events_of updateState poweredOn initial) =
    [updateAirQuality; updatePM25;
     updateActiveState; updateCurrentAirPurifierState].
Proof. repeat split; vm_compute; reflexivity. Qed.

(** C5 (amended): the update actions of a poll cycle are those of the changed
    keys taken in the reverse of the PropertyKey declaration order, each
    key's actions in the order of its table entry and without deduplication:
    when K1 is declared before K2 and both changed, the actions of K2 run
    before the actions of K1. *)
Theorem poll_cycle_reverse_order (c : Client) (w : World) (newState : Obj) :
  snd (AirPurifierDevice.status c w) = Ok newState ->
  keys newState = AirPurifierDevice.propertyKeys ->
  dispatched (events_of updateState c w) =
    flat_map valueUpdater
      (rev (filter
              (fun k => strict_neq (prop_get (status w) k) (prop_get newState k))
              AirPurifierDevice.propertyKeys)).
Proof.
  intros Hf Hk. rewrite (cycle_dispatched c w newState Hf).
  rewrite itemsNeedUpdate_changedKeys, changedKeys_by_key.
  - now rewrite Hk.
  - rewrite Hk. apply propertyKeys_NoDup.
Qed.

Lemma poll_cycle_reverse_order_witness :
  dispatched (events_of updateState poweredOn initial) =
    flat_map valueUpdater
      (rev (filter
              (fun k =>
                 strict_neq (prop_get (status initial) k)
                   (prop_get
                      (combine AirPurifierDevice.propertyKeys
                         (replace_nth 0 (VStr "on")
                            (replace_nth 1 (VNum 12) defaults1) ++ defaults2))
                      k))
              AirPurifierDevice.propertyKeys)).
Proof.
  apply (poll_cycle_reverse_order poweredOn initial); reflexivity.
Defined.

(** C10: in a poll cycle in which the LED key or the buzzer key changed, the
    action dispatched for that key is [updateLockPhysicalControls], and the
    cycle invokes neither [updateLED] nor [updateBuzzer]. *)
Theorem led_buzzer_dispatch_lock (c : Client) (w : World) (newState : Obj)
    (key : string) (v : value) :
  snd (AirPurifierDevice.status c w) = Ok newState ->
  key = PropertyKeys.LED \/ key = PropertyKeys.BUZZER ->
  In (key, v) (entries newState) ->
  strict_neq (prop_get (status w) key) v = true ->
  valueUpdater key = [updateLockPhysicalControls] /\
  In updateLockPhysicalControls (dispatched (events_of updateState c w)) /\
  ~ In updateLED (dispatched (events_of updateState c w)) /\
  ~ In updateBuzzer (dispatched (events_of updateState c w)).
Proof.
  intros Hf Hkey Hin Hneq. rewrite (cycle_dispatched c w newState Hf).
  assert (Hv : valueUpdater key = [updateLockPhysicalControls])
    by (destruct Hkey; subst key; reflexivity).
  split; [exact Hv|]. split; [|split].
  - apply itemsNeedUpdate_In. exists (key, v). repeat split; auto.
    simpl. rewrite Hv. now left.
  - intros H. apply itemsNeedUpdate_In in H. destruct H as (e & _ & _ & H).
    destruct (valueUpdater_never_led_buzzer (fst e)) as [Hled _]. exact (Hled H).
  - intros H. apply itemsNeedUpdate_In in H. destruct H as (e & _ & _ & H).
    destruct (valueUpdater_never_led_buzzer (fst e)) as [_ Hbuz]. exact (Hbuz H).
Qed.

Lemma led_buzzer_dispatch_lock_witness :
  valueUpdater PropertyKeys.LED = [updateLockPhysicalControls] /\
  In updateLockPhysicalControls (dispatched (events_of updateState ledOn initial)) /\
  ~ In updateLED (dispatched (events_of updateState ledOn initial)) /\
  ~ In updateBuzzer (dispatched (events_of updateState ledOn initial)).
Proof.
  apply (led_buzzer_dispatch_lock ledOn initial
           (combine AirPurifierDevice.propertyKeys
              (replace_nth 13 (VStr "on") defaults1 ++ defaults2))
           PropertyKeys.LED (VStr "on")).
  - reflexivity.
  - left. reflexivity.
  - simpl. do 13 right. left. reflexivity.
  - reflexivity.
Defined.

(** ** Write commands *)

Ltac run_command :=
  unfold events_of, setRotationSpeedImpl, setActiveState, try_catch, bind,
    getStatus, wait, emit, ret,
    AirPurifierDevice.setMode, AirPurifierDevice.setFavoriteSpeedLevel,
    AirPurifierDevice.setPower, send;
  cbn [status trace fst snd].

Ltac settle_trace :=
  cbn [status trace fst snd];
  repeat rewrite <- app_assoc; cbn [app];
  try rewrite skipn_length_app.

(** The events of one run of [setRotationSpeedImpl]. *)
Lemma setRotationSpeedImpl_events (speed : Q) (callback : nat)
    (c : Client) (w : World) :
  events_of (setRotationSpeedImpl speed callback) c w =
    if strict_neq (prop_get (status w) PropertyKeys.MODE) (VStr "favorite")
    then
      match c (trace w) "set_mode" [VStr "favorite"] with
      | Rejected e =>
          [EvSend "set_mode" [VStr "favorite"]; EvCallback callback (CbErr e)]
      | Resolved _ =>
          [EvSend "set_mode" [VStr "favorite"]; EvWait 300;
           EvSend "set_level_favorite" [VNum (favoriteLevel speed)];
           EvCallback callback
             match c (trace w ++ [EvSend "set_mode" [VStr "favorite"]; EvWait 300])
                     "set_level_favorite" [VNum (favoriteLevel speed)] with
             | Resolved _ => CbNull
             | Rejected e => CbErr e
             end]
      end
    else
      [EvSend "set_level_favorite" [VNum (favoriteLevel speed)];
       EvCallback callback
         match c (trace w) "set_level_favorite" [VNum (favoriteLevel speed)] with
         | Resolved _ => CbNull
         | Rejected e => CbErr e
         end].
Proof.
  run_command.
  destruct (strict_neq (prop_get (status w) PropertyKeys.MODE) (VStr "favorite")).
  - destruct (c (trace w) "set_mode" [VStr "favorite"]) as [r|e].
    + settle_trace.
      destruct (c (trace w ++ [EvSend "set_mode" [VStr "favorite"]; EvWait 300])
                  "set_level_favorite" [VNum (favoriteLevel speed)]);
        settle_trace; reflexivity.
    + settle_trace. reflexivity.
  - destruct (c (trace w) "set_level_favorite" [VNum (favoriteLevel speed)]);
      settle_trace; reflexivity.
Qed.

(** A run of [setRotationSpeedImpl] signals its own callback, once. *)
Lemma setRotationSpeedImpl_signals (speed : Q) (callback : nat)
    (c : Client) (w : World) :
  exists arg,
    signals (events_of (setRotationSpeedImpl speed callback) c w) =
      [(callback, arg)].
Proof.
  rewrite setRotationSpeedImpl_events.
  destruct (strict_neq _ _); [destruct (c _ _ _)|]; eexists; reflexivity.
Qed.

(** C7: when the known mode is already ['favorite'], the speed command
    issues only [set_level_favorite], and no mode switch. *)
Theorem speed_in_favorite_mode (speed : Q) (callback : nat)
    (c : Client) (w : World) :
  prop_get (status w) PropertyKeys.MODE = VStr "favorite" ->
  sent (events_of (setRotationSpeedImpl speed callback) c w) =
    [("set_level_favorite", [VNum (favoriteLevel speed)])] /\
  ~ In "set_mode" (map fst (sent (events_of (setRotationSpeedImpl speed callback) c w))).
Proof.
  intros Hmode. rewrite setRotationSpeedImpl_events, Hmode. simpl.
  split; [reflexivity|]. intros [H|[]]. discriminate.
Qed.

Lemma speed_in_favorite_mode_witness :
  sent (events_of (setRotationSpeedImpl 50 7) acking
          (mkWorld (prop_set DEFAULT_VALUE PropertyKeys.MODE (VStr "favorite")) [])) =
    [("set_level_favorite", [VNum 8])] /\
  ~ In "set_mode"
      (map fst
         (sent (events_of (setRotationSpeedImpl 50 7) acking
                  (mkWorld (prop_set DEFAULT_VALUE PropertyKeys.MODE (VStr "favorite")) [])))).
Proof.
  apply (speed_in_favorite_mode 50 7 acking
           (mkWorld (prop_set DEFAULT_VALUE PropertyKeys.MODE (VStr "favorite")) [])).
  reflexivity.
Defined.

(** C8: when the mode switch of the speed command fails, the sequence stops
    there: the mode switch's error goes to the completion callback and
    [set_level_favorite] is never issued. *)
Theorem speed_mode_switch_failed (speed : Q) (callback : nat)
    (c : Client) (w : World) (e : Error) :
  strict_neq (prop_get (status w) PropertyKeys.MODE) (VStr "favorite") = true ->
  c (trace w) "set_mode" [VStr "favorite"] = Rejected e ->
  events_of (setRotationSpeedImpl speed callback) c w =
    [EvSend "set_mode" [VStr "favorite"]; EvCallback callback (CbErr e)] /\
  signals (events_of (setRotationSpeedImpl speed callback) c w) =
    [(callback, CbErr e)] /\
  ~ In "set_level_favorite"
      (map fst (sent (events_of (setRotationSpeedImpl speed callback) c w))).
Proof.
  intros Hmode Hrej. rewrite setRotationSpeedImpl_events, Hmode, Hrej. simpl.
  repeat split. intros [H|[]]. discriminate.
Qed.

Lemma speed_mode_switch_failed_witness :
  events_of (setRotationSpeedImpl 50 7) offline initial =
    [EvSend "set_mode" [VStr "favorite"];
     EvCallback 7 (CbErr (MkError "timeout"))] /\
  signals (events_of (setRotationSpeedImpl 50 7) offline initial) =
    [(7%nat, CbErr (MkError "timeout"))] /\
  ~ In "set_level_favorite"
      (map fst (sent (events_of (setRotationSpeedImpl 50 7) offline initial))).
Proof.
  apply (speed_mode_switch_failed 50 7 offline initial (MkError "timeout"));
    reflexivity.
Defined.

(** C9: when the requested power state equals the power state of the current
    snapshot, [setActiveState] calls the completion callback with success and
    sends nothing to the transport. *)
Theorem power_already_set (state : value) (callback : nat)
    (c : Client) (w : World) :
  prop_get (status w) PropertyKeys.POWER =
    VStr (if strict_eq ACTIVE state then "on" else "off") ->
  events_of (setActiveState state callback) c w = [EvCallback callback CbNoArg] /\
  cb_success CbNoArg = true /\
  sent (events_of (setActiveState state callback) c w) = [] /\
  status (fst (setActiveState state callback c w)) = status w.
Proof.
  intros Hpower. run_command. rewrite Hpower.
  assert (Heq : forall s, strict_eq (VStr s) (VStr s) = true)
    by (intros s; simpl; apply String.eqb_refl).
  rewrite Heq. settle_trace. repeat split.
Qed.

Lemma power_already_set_witness :
  events_of (setActiveState (VNum 0) 3) offline initial = [EvCallback 3 CbNoArg] /\
  cb_success CbNoArg = true /\
  sent (events_of (setActiveState (VNum 0) 3) offline initial) = [] /\
  status (fst (setActiveState (VNum 0) 3 offline initial)) = status initial.
Proof.
  apply (power_already_set (VNum 0) 3 offline initial). reflexivity.
Defined.

(** A single scheduled invocation behaves as the invocation itself. *)
Lemma applyAll_single (due : Z) (speed : Q) (callback : nat)
    (c : Client) (w : World) :
  applyAll [(due, (speed, callback))] c w = setRotationSpeedImpl speed callback c w.
Proof.
  simpl. unfold bind, ret.
  destruct (setRotationSpeedImpl speed callback c w) as [w' [[]|e]]; reflexivity.
Qed.

(** C6: three calls of the debounced [setRotationSpeed] within less than the
    100 ms window lead to exactly one invocation of [setRotationSpeedImpl],
    with the third value and callback; the callbacks of the first two calls
    are never signalled. *)
Theorem coalesced_speed_writes (t1 t2 t3 : Z) (v1 v2 v3 : Q)
    (cb1 cb2 cb3 : nat) (c : Client) (w : World) :
  (t1 <= t2)%Z -> (t2 <= t3)%Z -> (t3 - t1 < 100)%Z ->
  applied 100 [(t1, (v1, cb1)); (t2, (v2, cb2)); (t3, (v3, cb3))] None =
    [((t3 + 100)%Z, (v3, cb3))] /\
  setRotationSpeed [(t1, (v1, cb1)); (t2, (v2, cb2)); (t3, (v3, cb3))] c w =
    setRotationSpeedImpl v3 cb3 c w /\
  forall cb arg,
    In (cb, arg)
       (signals (events_of
          (setRotationSpeed [(t1, (v1, cb1)); (t2, (v2, cb2)); (t3, (v3, cb3))])
          c w)) ->
    cb = cb3.
Proof.
  intros H12 H23 Hw.
  assert (Happ : applied 100 [(t1, (v1, cb1)); (t2, (v2, cb2)); (t3, (v3, cb3))]
                   None = [((t3 + 100)%Z, (v3, cb3))]).
  { simpl. unfold submit.
    replace (t1 + 100 <=? t2)%Z with false by (symmetry; apply Z.leb_gt; lia).
    replace (t2 + 100 <=? t3)%Z with false by (symmetry; apply Z.leb_gt; lia).
    reflexivity. }
  assert (Hrun : setRotationSpeed
                   [(t1, (v1, cb1)); (t2, (v2, cb2)); (t3, (v3, cb3))] c w =
                 setRotationSpeedImpl v3 cb3 c w).
  { unfold setRotationSpeed. rewrite Happ. apply applyAll_single. }
  split; [exact Happ|]. split; [exact Hrun|].
  intros cb arg Hin. unfold events_of in Hin. rewrite Hrun in Hin.
  destruct (setRotationSpeedImpl_signals v3 cb3 c w) as (arg' & Hs).
  unfold events_of in Hs. rewrite Hs in Hin.
  destruct Hin as [Heq|[]]. now inversion Heq.
Qed.

Lemma coalesced_speed_writes_witness :
  applied 100 [(0%Z, (10, 1%nat)); (30%Z, (50, 2%nat)); (99%Z, (70, 3%nat))] None =
    [(199%Z, (70, 3%nat))] /\
  setRotationSpeed [(0%Z, (10, 1%nat)); (30%Z, (50, 2%nat)); (99%Z, (70, 3%nat))]
    acking initial = setRotationSpeedImpl 70 3 acking initial /\
  forall cb arg,
    In (cb, arg)
       (signals (events_of
          (setRotationSpeed
             [(0%Z, (10, 1%nat)); (30%Z, (50, 2%nat)); (99%Z, (70, 3%nat))])
          acking initial)) ->
    cb = 3%nat.
Proof.
  apply (coalesced_speed_writes 0 30 99 10 50 70 1 2 3 acking initial); lia.
Defined.


(** ** The keys of a fetched snapshot *)

Lemma keys_set_present (o : Obj) (k : string) (v : value) :
  In k (keys o) -> keys (prop_set o k v) = keys o.
Proof.
  induction o as [|[k0 w] o IH]; simpl; intros Hin.
  - contradiction.
  - destruct (String.eqb k0 k) eqn:E; simpl; [reflexivity|].
    f_equal. apply IH. destruct Hin as [->|Hin]; [|exact Hin].
    rewrite String.eqb_refl in E. discriminate.
Qed.

Lemma keys_set_absent (o : Obj) (k : string) (v : value) :
  ~ In k (keys o) -> keys (prop_set o k v) = keys o ++ [k].
Proof.
  induction o as [|[k0 w] o IH]; simpl; intros Hin.
  - reflexivity.
  - destruct (String.eqb k0 k) eqn:E; simpl.
    + apply String.eqb_eq in E. exfalso. apply Hin. now left.
    + f_equal. apply IH. intros H. apply Hin. now right.
Qed.

(** Entries with fresh, pairwise distinct keys are appended in order. *)
Lemma keys_fold_fresh (es : list (option string * value)) :
  forall o : Obj,
    NoDup (map (fun e => toPropertyKey (fst e)) es) ->
    (forall k, In k (map (fun e => toPropertyKey (fst e)) es) -> ~ In k (keys o)) ->
    keys (fold_left (fun o e => prop_set o (toPropertyKey (fst e)) (snd e)) es o)
      = keys o ++ map (fun e => toPropertyKey (fst e)) es.
Proof.
  induction es as [|e es IH]; intros o Hnd Hfresh; simpl.
  - now rewrite app_nil_r.
  - simpl in Hnd. inversion Hnd as [|? ? Hhd Hnd']; subst.
    rewrite IH; auto.
    + rewrite keys_set_absent by (apply Hfresh; now left).
      now rewrite <- app_assoc.
    + intros k Hk. rewrite keys_set_absent by (apply Hfresh; now left).
      intros Hin. apply in_app_or in Hin. destruct Hin as [Hin|[<-|[]]].
      * apply (Hfresh k); [now right|exact Hin].
      * exact (Hhd Hk).
Qed.

(** Surplus values all go to the one key ["undefined"]. *)
Lemma keys_fold_padding (vs : list value) (o : Obj) :
  keys (fold_left (fun o e => prop_set o (toPropertyKey (fst e)) (snd e))
          (map (fun v => (None, v)) vs) o) =
    match vs with
    | [] => keys o
    | _ :: _ =>
        if in_dec string_dec "undefined" (keys o)
        then keys o else keys o ++ ["undefined"]
    end.
Proof.
  assert (Hin : forall (us : list value) (o' : Obj),
             In "undefined" (keys o') ->
             keys (fold_left
                     (fun o e => prop_set o (toPropertyKey (fst e)) (snd e))
                     (map (fun v => (None, v)) us) o') = keys o').
  { induction us as [|u us IHus]; intros o' Ho'; simpl; auto.
    rewrite IHus; rewrite keys_set_present; auto. }
  destruct vs as [|v vs]; [reflexivity|]. simpl.
  destruct (in_dec string_dec "undefined" (keys o)) as [Hi|Hn].
  - rewrite Hin; rewrite keys_set_present; auto.
  - rewrite Hin; rewrite keys_set_absent; auto.
    apply in_or_app. right. now left.
Qed.

Lemma zip_split (ks : list string) (vs : list value) :
  zip ks vs =
    zip ks (firstn (List.length ks) vs) ++
    map (fun v => (None, v)) (skipn (List.length ks) vs).
Proof.
  revert vs. induction ks as [|k ks IH]; intros vs; simpl.
  - reflexivity.
  - destruct vs as [|v vs]; simpl.
    + now rewrite app_nil_r.
    + now rewrite <- IH.
Qed.

Lemma zip_keys (ks : list string) (vs : list value) :
  (List.length vs <= List.length ks)%nat ->
  map (fun e => toPropertyKey (fst e)) (zip ks vs) = ks.
Proof.
  revert vs. induction ks as [|k ks IH]; intros vs Hlen; simpl.
  - destruct vs; [reflexivity|simpl in Hlen; lia].
  - destruct vs as [|v vs]; simpl; f_equal; apply IH; simpl in *; lia.
Qed.

(** The keys after one chunk has been zipped into an object that has none of
    the chunk's keys. *)
Lemma keys_fold_chunk (ks : list string) (vs : list value) (o : Obj) :
  NoDup ks ->
  (forall k, In k ks -> ~ In k (keys o)) ->
  keys (fold_left (fun o e => prop_set o (toPropertyKey (fst e)) (snd e))
          (zip ks vs) o) =
    match skipn (List.length ks) vs with
    | [] => keys o ++ ks
    | _ :: _ =>
        if in_dec string_dec "undefined" (keys o ++ ks)
        then keys o ++ ks else (keys o ++ ks) ++ ["undefined"]
    end.
Proof.
  intros Hnd Hfresh. rewrite zip_split, fold_left_app, keys_fold_padding.
  assert (Hk : map (fun e => toPropertyKey (fst e))
                 (zip ks (firstn (List.length ks) vs)) = ks).
  { apply zip_keys. rewrite length_firstn. lia. }
  rewrite keys_fold_fresh; rewrite Hk; auto.
Qed.

Lemma skipn_nil_iff {A} (n : nat) (l : list A) :
  skipn n l = [] <-> (List.length l <= n)%nat.
Proof.
  split.
  - intros H. pose proof (length_skipn n l) as Hl. rewrite H in Hl.
    simpl in Hl. lia.
  - apply skipn_all2.
Qed.

(** The keys of the object a fetch builds from the results [r1] and [r2]. *)
Lemma fetched_keys (r1 r2 : list value) :
  keys (fromEntries (zip AirPurifierDevice.chunk1 r1 ++
                     zip AirPurifierDevice.chunk2 r2)) =
    AirPurifierDevice.chunk1 ++
    (if (15 <? List.length r1)%nat then ["undefined"] else []) ++
    AirPurifierDevice.chunk2 ++
    (if ((List.length r1 <=? 15)%nat && (13 <? List.length r2)%nat)%bool
     then ["undefined"] else []).
Proof.
  unfold fromEntries. rewrite fold_left_app.
  assert (K1 : keys (fold_left
                       (fun o e => prop_set o (toPropertyKey (fst e)) (snd e))
                       (zip AirPurifierDevice.chunk1 r1) []) =
               AirPurifierDevice.chunk1 ++
               (if (15 <? List.length r1)%nat then ["undefined"] else [])).
  { rewrite keys_fold_chunk; [|apply chunk1_NoDup|intros k _ []].
    change (List.length AirPurifierDevice.chunk1) with 15%nat.
    destruct (15 <? List.length r1)%nat eqn:E.
    - apply Nat.ltb_lt in E.
      destruct (skipn 15 r1) eqn:S; [apply skipn_nil_iff in S; lia|].
      reflexivity.
    - apply Nat.ltb_ge in E. apply skipn_nil_iff in E. rewrite E.
      reflexivity. }
  rewrite keys_fold_chunk; [|apply chunk2_NoDup|].
  - rewrite K1. change (List.length AirPurifierDevice.chunk2) with 13%nat.
    destruct (15 <? List.length r1)%nat eqn:E1.
    + assert (E1' : (List.length r1 <=? 15)%nat = false)
        by (apply Nat.leb_gt; now apply Nat.ltb_lt in E1).
      rewrite E1'. simpl andb. cbv iota.
      destruct (skipn 13 r2); reflexivity.
    + assert (E1' : (List.length r1 <=? 15)%nat = true)
        by (apply Nat.leb_le; now apply Nat.ltb_ge in E1).
      rewrite E1'. simpl andb.
      destruct (13 <? List.length r2)%nat eqn:E2.
      * apply Nat.ltb_lt in E2.
        destruct (skipn 13 r2) eqn:S; [apply skipn_nil_iff in S; lia|].
        reflexivity.
      * apply Nat.ltb_ge in E2. apply skipn_nil_iff in E2. rewrite E2.
        reflexivity.
  - intros k Hk. rewrite K1. intros Hin.
    apply in_app_or in Hin. destruct Hin as [Hin|Hin].
    + exact (chunks_disjoint k Hin Hk).
    + destruct (15 <? List.length r1)%nat; [|contradiction].
      destruct Hin as [<-|[]].
      apply propertyKeys_defined. rewrite propertyKeys_chunks.
      apply in_or_app. now right.
Qed.

Lemma fetched_keys_NoDup (r1 r2 : list value) :
  NoDup (keys (fromEntries (zip AirPurifierDevice.chunk1 r1 ++
                            zip AirPurifierDevice.chunk2 r2))).
Proof.
  rewrite fetched_keys, (Nat.leb_antisym 15 (List.length r1)).
  destruct (15 <? List.length r1)%nat, (13 <? List.length r2)%nat;
    simpl negb; simpl andb; cbv iota;
    match goal with
    | |- NoDup ?l =>
        replace l with (nodup string_dec l) by (vm_compute; reflexivity);
        apply NoDup_nodup
    end.
Qed.

Lemma fetched_keys_declared (r1 r2 : list value) (k : string) :
  In k AirPurifierDevice.propertyKeys ->
  In k (keys (fromEntries (zip AirPurifierDevice.chunk1 r1 ++
                           zip AirPurifierDevice.chunk2 r2))).
Proof.
  rewrite fetched_keys, propertyKeys_chunks. intros Hin.
  apply in_app_or in Hin. apply in_or_app. destruct Hin as [Hin|Hin].
  - now left.
  - right. apply in_or_app. right. apply in_or_app. now left.
Qed.

Lemma filter_none {A} (P : A -> bool) (l : list A) :
  (forall x, In x l -> P x = false) -> filter P l = [].
Proof.
  induction l as [|x l IH]; intros H; simpl; auto.
  rewrite (H x (or_introl eq_refl)). apply IH. intros y Hy. apply H. now right.
Qed.

Lemma strict_eq_refl (v : value) : strict_eq v v = true.
Proof.
  destruct v; simpl; auto.
  - apply Bool.eqb_reflx.
  - apply Z.eqb_refl.
  - apply String.eqb_refl.
Qed.

(** Compared with itself, an object with distinct keys has no changed entry. *)
Lemma unchanged_against_itself (o : Obj) :
  NoDup (keys o) -> itemsNeedUpdate o o = [].
Proof.
  intros Hnd. rewrite itemsNeedUpdate_changedKeys. unfold changedKeys, entries.
  rewrite filter_none; [reflexivity|].
  intros [k v] Hin. unfold changed, strict_neq. simpl.
  rewrite (prop_get_entry o k v Hnd Hin), strict_eq_refl. reflexivity.
Qed.

Lemma cycle_dispatched_failed (c : Client) (w : World) (e : Error) :
  snd (AirPurifierDevice.status c w) = Throw e ->
  dispatched (events_of updateState c w) = [].
Proof.
  intros H. unfold events_of. rewrite (updateState_fetch_failed c w e H).
  destruct (status_extends c w) as (evs & Hw & Hd).
  cbn [fst]. rewrite Hw. cbn [trace]. now rewrite skipn_length_app.
Qed.

(** X1: whatever the lengths of the two results, the snapshot of a fetch has
    the keys of the first chunk, then the key ["undefined"] if the first
    result had more than 15 values, then the keys of the second chunk, then
    the key ["undefined"] if only the second result had surplus values. *)
Theorem fetch_snapshot_keys (c : Client) (w : World) (r1 r2 : list value) :
  c (trace w) "get_prop" (map VStr AirPurifierDevice.chunk1) = Resolved r1 ->
  c (trace w ++ [EvSend "get_prop" (map VStr AirPurifierDevice.chunk1)])
    "get_prop" (map VStr AirPurifierDevice.chunk2) = Resolved r2 ->
  exists snap,
    snd (AirPurifierDevice.status c w) = Ok snap /\
    keys snap =
      AirPurifierDevice.chunk1 ++
      (if (15 <? List.length r1)%nat then ["undefined"] else []) ++
      AirPurifierDevice.chunk2 ++
      (if ((List.length r1 <=? 15)%nat && (13 <? List.length r2)%nat)%bool
       then ["undefined"] else []).
Proof.
  intros H1 H2. eexists. split.
  - rewrite (status_resolved c w r1 r2 H1 H2). reflexivity.
  - apply fetched_keys.
Qed.

Lemma fetch_snapshot_keys_witness :
  exists snap,
    snd (AirPurifierDevice.status chatty initial) = Ok snap /\
    keys snap =
      AirPurifierDevice.chunk1 ++
      (if (15 <? List.length (defaults1 ++ [VNum 1]))%nat
       then ["undefined"] else []) ++
      AirPurifierDevice.chunk2 ++
      (if ((List.length (defaults1 ++ [VNum 1]) <=? 15)%nat &&
           (13 <? List.length (defaults2 ++ [VNum 2; VNum 3]))%nat)%bool
       then ["undefined"] else []).
Proof.
  apply (fetch_snapshot_keys chatty initial); reflexivity.
Defined.

(** X2: every snapshot a fetch produces has each declared property key as an
    own key and no key twice; when neither result is longer than its chunk
    (short results included) its keys are exactly the declared keys, in
    declaration order. *)
Theorem fetch_snapshot_complete (c : Client) (w : World) (r1 r2 : list value) :
  c (trace w) "get_prop" (map VStr AirPurifierDevice.chunk1) = Resolved r1 ->
  c (trace w ++ [EvSend "get_prop" (map VStr AirPurifierDevice.chunk1)])
    "get_prop" (map VStr AirPurifierDevice.chunk2) = Resolved r2 ->
  exists snap,
    snd (AirPurifierDevice.status c w) = Ok snap /\
    NoDup (keys snap) /\
    (forall k, In k AirPurifierDevice.propertyKeys -> In k (keys snap)) /\
    ((List.length r1 <= 15)%nat -> (List.length r2 <= 13)%nat ->
     keys snap = AirPurifierDevice.propertyKeys).
Proof.
  intros H1 H2. eexists. split; [|split; [|split]].
  - rewrite (status_resolved c w r1 r2 H1 H2). reflexivity.
  - apply fetched_keys_NoDup.
  - intros k Hk. now apply fetched_keys_declared.
  - intros L1 L2. rewrite fetched_keys.
    replace (15 <? List.length r1)%nat with false
      by (symmetry; apply Nat.ltb_ge; lia).
    replace (13 <? List.length r2)%nat with false
      by (symmetry; apply Nat.ltb_ge; lia).
    rewrite andb_false_r. reflexivity.
Qed.

Lemma fetch_snapshot_complete_witness :
  exists snap,
    snd (AirPurifierDevice.status (replyWith [VStr "on"] defaults2) initial)
      = Ok snap /\
    NoDup (keys snap) /\
    (forall k, In k AirPurifierDevice.propertyKeys -> In k (keys snap)) /\
    ((List.length [VStr "on"] <= 15)%nat -> (List.length defaults2 <= 13)%nat ->
     keys snap = AirPurifierDevice.propertyKeys).
Proof.
  apply (fetch_snapshot_complete (replyWith [VStr "on"] defaults2) initial);
    reflexivity.
Defined.

(** X3: when the first batch read is rejected, the fetch fails with that
    error and the second batch read is never issued. *)
Theorem fetch_stops_at_first_failure (c : Client) (w : World) (e : Error) :
  c (trace w) "get_prop" (map VStr AirPurifierDevice.chunk1) = Rejected e ->
  snd (AirPurifierDevice.status c w) = Throw e /\
  sent (events_of AirPurifierDevice.status c w) =
    [("get_prop", map VStr AirPurifierDevice.chunk1)].
Proof.
  intros H. unfold events_of. rewrite (status_first_rejected c w e H).
  cbn [fst snd trace]. rewrite skipn_length_app. split; reflexivity.
Qed.

Lemma fetch_stops_at_first_failure_witness :
  snd (AirPurifierDevice.status offline initial) = Throw (MkError "timeout") /\
  sent (events_of AirPurifierDevice.status offline initial) =
    [("get_prop", map VStr AirPurifierDevice.chunk1)].
Proof.
  apply (fetch_stops_at_first_failure offline initial (MkError "timeout")).
  reflexivity.
Defined.

(** X4: when a poll cycle fetches the same results as the cycle before it,
    it invokes no update action and leaves the stored snapshot as it is. *)
Theorem repeated_poll_dispatches_nothing (c : Client) (w : World)
    (r1 r2 : list value) :
  c (trace w) "get_prop" (map VStr AirPurifierDevice.chunk1) = Resolved r1 ->
  c (trace w ++ [EvSend "get_prop" (map VStr AirPurifierDevice.chunk1)])
    "get_prop" (map VStr AirPurifierDevice.chunk2) = Resolved r2 ->
  c (trace (fst (updateState c w)))
    "get_prop" (map VStr AirPurifierDevice.chunk1) = Resolved r1 ->
  c (trace (fst (updateState c w)) ++
     [EvSend "get_prop" (map VStr AirPurifierDevice.chunk1)])
    "get_prop" (map VStr AirPurifierDevice.chunk2) = Resolved r2 ->
  dispatched (events_of updateState c (fst (updateState c w))) = [] /\
  status (fst (updateState c (fst (updateState c w)))) =
    status (fst (updateState c w)).
Proof.
  intros H1 H2 H3 H4.
  pose proof (status_resolved c w r1 r2 H1 H2) as Hs1.
  pose proof (status_resolved c _ r1 r2 H3 H4) as Hs2.
  assert (Hst : status (fst (updateState c w)) =
                fromEntries (zip AirPurifierDevice.chunk1 r1 ++
                             zip AirPurifierDevice.chunk2 r2)).
  { rewrite (updateState_fetch_ok c w _ (f_equal snd Hs1)). reflexivity. }
  split.
  - rewrite (cycle_dispatched c _ _ (f_equal snd Hs2)), Hst.
    apply unchanged_against_itself, fetched_keys_NoDup.
  - rewrite (updateState_fetch_ok c _ _ (f_equal snd Hs2)). cbn [fst status].
    now rewrite Hst.
Qed.

Lemma repeated_poll_dispatches_nothing_witness :
  dispatched (events_of updateState (fun _ _ _ => Resolved [VStr "on"])
                (fst (updateState (fun _ _ _ => Resolved [VStr "on"]) initial)))
    = [] /\
  status (fst (updateState (fun _ _ _ => Resolved [VStr "on"])
                 (fst (updateState (fun _ _ _ => Resolved [VStr "on"]) initial)))) =
    status (fst (updateState (fun _ _ _ => Resolved [VStr "on"]) initial)).
Proof.
  apply (repeated_poll_dispatches_nothing (fun _ _ _ => Resolved [VStr "on"])
           initial [VStr "on"] [VStr "on"]); reflexivity.
Defined.

(** ** More on the poll cycle *)

(** X5: a poll cycle invokes an update action exactly when some entry of the
    fetched snapshot differs from the stored value of its key and the table
    entry of that key lists the action. *)
Theorem dispatch_iff_triggered (c : Client) (w : World) (newState : Obj)
    (u : Updater) :
  snd (AirPurifierDevice.status c w) = Ok newState ->
  (In u (dispatched (events_of updateState c w)) <->
   exists key v,
     In (key, v) (entries newState) /\
     strict_neq (prop_get (status w) key) v = true /\
     In u (valueUpdater key)).
Proof.
  intros Hf. rewrite (cycle_dispatched c w newState Hf), itemsNeedUpdate_In.
  split.
  - intros ([key v] & Hin & Hc & Hu). exists key, v. auto.
  - intros (key & v & Hin & Hc & Hu). exists (key, v). auto.
Qed.

Lemma dispatch_iff_triggered_witness :
  In updateActiveState (dispatched (events_of updateState poweredOn initial)) <->
  exists key v,
    In (key, v)
       (entries
          (combine AirPurifierDevice.propertyKeys
             (replace_nth 0 (VStr "on") (replace_nth 1 (VNum 12) defaults1)
              ++ defaults2))) /\
    strict_neq (prop_get (status initial) key) v = true /\
    In updateActiveState (valueUpdater key).
Proof.
  apply (dispatch_iff_triggered poweredOn initial). reflexivity.
Defined.

Lemma valueUpdater_never_filter_change (key : string) :
  ~ In updateFilterChangeState (valueUpdater key).
Proof.
  unfold valueUpdater.
  repeat match goal with
         | |- context [String.eqb key ?k] => destruct (String.eqb key k)
         end;
    simpl; intuition discriminate.
Qed.

(** X6: no poll cycle ever invokes [updateFilterChangeState], whatever the
    device reports: the filter-change indication is never refreshed. *)
Theorem filter_change_never_dispatched (c : Client) (w : World) :
  ~ In updateFilterChangeState (dispatched (events_of updateState c w)).
Proof.
  destruct (snd (AirPurifierDevice.status c w)) as [newState|e] eqn:Hf.
  - rewrite (cycle_dispatched c w newState Hf), itemsNeedUpdate_In.
    intros (e & _ & _ & H). exact (valueUpdater_never_filter_change _ H).
  - rewrite (cycle_dispatched_failed c w e Hf). intros [].
Qed.

(** ** More on the command handlers *)

Ltac run_handler :=
  unfold events_of, setActiveState, setTargetAirPurifierState,
    setLockPhysicalControls, setLED, setBuzzer, try_catch, bind,
    getStatus, emit, ret,
    AirPurifierDevice.setMode, AirPurifierDevice.setPower,
    AirPurifierDevice.setPhysicalLock, AirPurifierDevice.setLED,
    AirPurifierDevice.setBuzzer, send;
  cbn [status trace fst snd].

Ltac one_signal :=
  settle_trace;
  first
    [ eexists [], _; split; reflexivity
    | eexists [_], _; split; reflexivity
    | eexists [_; _; _], _; split; reflexivity ].

Lemma setRotationSpeedImpl_signals_once (speed : Q) (callback : nat) :
  signals_once (setRotationSpeedImpl speed callback) callback.
Proof.
  intros c w. rewrite setRotationSpeedImpl_events.
  destruct (strict_neq _ _); [destruct (c _ _ _)|]; one_signal.
Qed.

(** X7: each command handler (power, target state, lock, rotation speed,
    LED, buzzer) calls its completion callback exactly once, as the last
    event of its run, whether the transport resolves or rejects. *)
Theorem handlers_signal_once (state : value) (speed : Q) (callback : nat) :
  signals_once (setActiveState state callback) callback /\
  signals_once (setTargetAirPurifierState state callback) callback /\
  signals_once (setLockPhysicalControls state callback) callback /\
  signals_once (setRotationSpeedImpl speed callback) callback /\
  signals_once (setLED state callback) callback /\
  signals_once (setBuzzer state callback) callback.
Proof.
  repeat split; try apply setRotationSpeedImpl_signals_once; intros c w.
  - run_handler. destruct (strict_eq _ (prop_get _ _)); [one_signal|].
    destruct (c _ _ _); one_signal.
  - run_handler. destruct (c _ _ _); one_signal.
  - run_handler. destruct (c _ _ _); one_signal.
  - run_handler. destruct (c _ _ _); one_signal.
  - run_handler. destruct (c _ _ _); one_signal.
Qed.

Lemma setRotationSpeedImpl_keeps_status (speed : Q) (callback : nat) :
  keeps_status (setRotationSpeedImpl speed callback).
Proof.
  intros c w. run_command.
  destruct (strict_neq _ _); repeat (destruct (c _ _ _); cbn [status fst snd]);
    reflexivity.
Qed.

Lemma setActiveState_keeps_status (state : value) (callback : nat) :
  keeps_status (setActiveState state callback).
Proof.
  intros c w. run_handler.
  destruct (strict_eq _ (prop_get _ _)); [reflexivity|].
  destruct (c _ _ _); reflexivity.
Qed.

(** X8: no command handler writes [this.status]; neither does the fetch.
    The stored snapshot only changes in [updateState]. *)
Theorem commands_keep_status (state : value) (speed : Q) (callback : nat) :
  keeps_status (setActiveState state callback) /\
  keeps_status (setTargetAirPurifierState state callback) /\
  keeps_status (setLockPhysicalControls state callback) /\
  keeps_status (setRotationSpeedImpl speed callback) /\
  keeps_status (setLED state callback) /\
  keeps_status (setBuzzer state callback) /\
  keeps_status AirPurifierDevice.status.
Proof.
  repeat split;
    try apply setRotationSpeedImpl_keeps_status;
    try apply setActiveState_keeps_status; intros c w.
  - run_handler. destruct (c _ _ _); reflexivity.
  - run_handler. destruct (c _ _ _); reflexivity.
  - run_handler. destruct (c _ _ _); reflexivity.
  - run_handler. destruct (c _ _ _); reflexivity.
  - destruct (status_extends c w) as (evs & Hw & _). now rewrite Hw.
Qed.

(** The events of one run of [setActiveState]. *)
Lemma setActiveState_events (state : value) (callback : nat)
    (c : Client) (w : World) :
  events_of (setActiveState state callback) c w =
    let targetState := if strict_eq ACTIVE state then "on" else "off" in
    if strict_eq (VStr targetState) (prop_get (status w) PropertyKeys.POWER)
    then [EvCallback callback CbNoArg]
    else
      [EvSend "set_power" [VStr targetState];
       EvCallback callback
         match c (trace w) "set_power" [VStr targetState] with
         | Resolved _ => CbNull
         | Rejected e => CbErr e
         end].
Proof.
  run_handler. cbv zeta.
  destruct (strict_eq (VStr _) (prop_get _ _)).
  - settle_trace. reflexivity.
  - destruct (c _ _ _); settle_trace; reflexivity.
Qed.

(** The events of one run of [setTargetAirPurifierState]. *)
Lemma setTargetAirPurifierState_events (state : value) (callback : nat)
    (c : Client) (w : World) :
  events_of (setTargetAirPurifierState state callback) c w =
    let mode :=
      if strict_eq state TargetAirPurifierState.AUTO then "auto" else "favorite" in
    [EvSend "set_mode" [VStr mode];
     EvCallback callback
       match c (trace w) "set_mode" [VStr mode] with
       | Resolved _ => CbNull
       | Rejected e => CbErr e
       end].
Proof.
  run_handler. cbv zeta. destruct (c _ _ _); settle_trace; reflexivity.
Qed.

(** The events of one run of [setLockPhysicalControls]. *)
Lemma setLockPhysicalControls_events (state : value) (callback : nat)
    (c : Client) (w : World) :
  events_of (setLockPhysicalControls state callback) c w =
    let on :=
      if strict_eq state LockPhysicalControls.CONTROL_LOCK_ENABLED
      then "on" else "off" in
    [EvSend "set_child_lock" [VStr on];
     EvCallback callback
       match c (trace w) "set_child_lock" [VStr on] with
       | Resolved _ => CbNoArg
       | Rejected e => CbErr e
       end].
Proof.
  run_handler. cbv zeta. destruct (c _ _ _); settle_trace; reflexivity.
Qed.

(** X9: commands do not record the mode they set, so while the stored
    snapshot says the mode is not ['favorite'], a speed command that follows
    another speed command again starts with the mode switch. *)
Theorem speed_repeats_mode_switch (speed1 speed2 : Q) (cb1 cb2 : nat)
    (c : Client) (w : World) :
  strict_neq (prop_get (status w) PropertyKeys.MODE) (VStr "favorite") = true ->
  hd_error
    (events_of (setRotationSpeedImpl speed2 cb2) c
       (fst (setRotationSpeedImpl speed1 cb1 c w))) =
    Some (EvSend "set_mode" [VStr "favorite"]).
Proof.
  intros Hmode. rewrite setRotationSpeedImpl_events.
  rewrite (setRotationSpeedImpl_keeps_status speed1 cb1 c w), Hmode.
  destruct (c _ _ _); reflexivity.
Qed.

Lemma speed_repeats_mode_switch_witness :
  hd_error
    (events_of (setRotationSpeedImpl 50 2) acking
       (fst (setRotationSpeedImpl 25 1 acking initial))) =
    Some (EvSend "set_mode" [VStr "favorite"]).
Proof.
  apply (speed_repeats_mode_switch 25 50 1 2 acking initial). reflexivity.
Defined.

(** X10: commands do not record the power state they set: with the stored
    snapshot saying ['off'], switching on sends [set_power on], and a
    request to switch off that follows before the next poll is answered
    with success without any command being sent. *)
Theorem power_off_after_on_is_dropped (state : value) (cb1 cb2 : nat)
    (c : Client) (w : World) :
  prop_get (status w) PropertyKeys.POWER = VStr "off" ->
  strict_eq ACTIVE state = false ->
  sent (events_of (setActiveState ACTIVE cb1) c w) =
    [("set_power", [VStr "on"])] /\
  events_of (setActiveState state cb2) c (fst (setActiveState ACTIVE cb1 c w)) =
    [EvCallback cb2 CbNoArg].
Proof.
  intros Hoff Hstate. split.
  - rewrite setActiveState_events, Hoff. reflexivity.
  - rewrite setActiveState_events.
    rewrite (setActiveState_keeps_status ACTIVE cb1 c w), Hoff, Hstate.
    reflexivity.
Qed.

Lemma power_off_after_on_is_dropped_witness :
  sent (events_of (setActiveState ACTIVE 1) acking initial) =
    [("set_power", [VStr "on"])] /\
  events_of (setActiveState INACTIVE 2) acking
    (fst (setActiveState ACTIVE 1 acking initial)) =
    [EvCallback 2 CbNoArg].
Proof.
  apply (power_off_after_on_is_dropped INACTIVE 1 2 acking initial);
    reflexivity.
Defined.

(** X11: once a poll cycle has stored a snapshot whose mode is ['favorite'],
    a speed command sends [set_level_favorite] alone. *)
Theorem speed_after_poll_in_favorite (speed : Q) (callback : nat)
    (c : Client) (w : World) (newState : Obj) :
  snd (AirPurifierDevice.status c w) = Ok newState ->
  prop_get newState PropertyKeys.MODE = VStr "favorite" ->
  sent (events_of (setRotationSpeedImpl speed callback) c
          (fst (updateState c w))) =
    [("set_level_favorite", [VNum (favoriteLevel speed)])].
Proof.
  intros Hf Hmode. rewrite setRotationSpeedImpl_events.
  rewrite (updateState_fetch_ok c w newState Hf). cbn [fst status].
  rewrite Hmode. reflexivity.
Qed.

Lemma speed_after_poll_in_favorite_witness :
  sent (events_of (setRotationSpeedImpl 50 7) favoriteAt1000
          (fst (updateState favoriteAt1000 initial))) =
    [("set_level_favorite", [VNum (favoriteLevel 50)])].
Proof.
  apply (speed_after_poll_in_favorite 50 7 favoriteAt1000 initial
           (combine AirPurifierDevice.propertyKeys
              (replace_nth 5 (VStr "favorite")
                 (replace_nth 10 (VNum 1000) defaults1) ++ defaults2)));
    reflexivity.
Defined.

(** X12: the power command and the power update agree: when
    [setActiveState] is called with ACTIVE or INACTIVE and sends
    [set_power t], a snapshot in which the device reports power [t] makes
    [updateActiveState] push the requested state back. *)
Theorem active_round_trip (state : value) (callback : nat)
    (c : Client) (w : World) (t : string) :
  state = ACTIVE \/ state = INACTIVE ->
  In ("set_power", [VStr t]) (sent (events_of (setActiveState state callback) c w)) ->
  activeStateValue (prop_set (status w) PropertyKeys.POWER (VStr t)) = state.
Proof.
  intros Hstate Hsent. rewrite setActiveState_events in Hsent.
  unfold activeStateValue. rewrite prop_get_set, String.eqb_refl.
  cbv zeta in Hsent.
  destruct (strict_eq (VStr _) (prop_get _ _)); [destruct Hsent|].
  destruct Hsent as [Heq|[]]. inversion Heq; subst t.
  destruct Hstate; subst state; reflexivity.
Qed.

Lemma active_round_trip_witness :
  activeStateValue (prop_set (status initial) PropertyKeys.POWER (VStr "on")) =
    ACTIVE.
Proof.
  apply (active_round_trip ACTIVE 1 acking initial "on").
  - left. reflexivity.
  - left. reflexivity.
Defined.

(** X13: the target-state command and the target-state update agree: when
    [setTargetAirPurifierState] is called with AUTO or MANUAL and sends
    [set_mode m], a snapshot in which the device reports mode [m] makes
    [updateTargetAirPurifierState] push the requested state back. *)
Theorem target_state_round_trip (state : value) (callback : nat)
    (c : Client) (w : World) (m : string) :
  state = TargetAirPurifierState.AUTO \/ state = TargetAirPurifierState.MANUAL ->
  In ("set_mode", [VStr m])
     (sent (events_of (setTargetAirPurifierState state callback) c w)) ->
  targetAirPurifierStateValue (prop_set (status w) PropertyKeys.MODE (VStr m))
    = state.
Proof.
  intros Hstate Hsent. rewrite setTargetAirPurifierState_events in Hsent.
  unfold targetAirPurifierStateValue. rewrite prop_get_set, String.eqb_refl.
  destruct Hsent as [Heq|[]]. inversion Heq; subst m.
  destruct Hstate; subst state; reflexivity.
Qed.

Lemma target_state_round_trip_witness :
  targetAirPurifierStateValue
    (prop_set (status initial) PropertyKeys.MODE (VStr "favorite"))
    = TargetAirPurifierState.MANUAL.
Proof.
  apply (target_state_round_trip TargetAirPurifierState.MANUAL 1 acking
           initial "favorite").
  - right. reflexivity.
  - left. reflexivity.
Defined.

(** X14: the lock command and the lock update agree: when
    [setLockPhysicalControls] is called with CONTROL_LOCK_ENABLED or
    CONTROL_LOCK_DISABLED and sends [set_child_lock t], a snapshot in which
    the device reports child lock [t] makes [updateLockPhysicalControls] push
    the requested state back. *)
Theorem lock_round_trip (state : value) (callback : nat)
    (c : Client) (w : World) (t : string) :
  state = LockPhysicalControls.CONTROL_LOCK_ENABLED \/
  state = LockPhysicalControls.CONTROL_LOCK_DISABLED ->
  In ("set_child_lock", [VStr t])
     (sent (events_of (setLockPhysicalControls state callback) c w)) ->
  lockPhysicalControlsValue
    (prop_set (status w) PropertyKeys.CHILD_LOCK (VStr t)) = state.
Proof.
  intros Hstate Hsent. rewrite setLockPhysicalControls_events in Hsent.
  unfold lockPhysicalControlsValue. rewrite prop_get_set, String.eqb_refl.
  destruct Hsent as [Heq|[]]. inversion Heq; subst t.
  destruct Hstate; subst state; reflexivity.
Qed.

Lemma lock_round_trip_witness :
  lockPhysicalControlsValue
    (prop_set (status initial) PropertyKeys.CHILD_LOCK (VStr "on"))
    = LockPhysicalControls.CONTROL_LOCK_ENABLED.
Proof.
  apply (lock_round_trip LockPhysicalControls.CONTROL_LOCK_ENABLED 1 acking
           initial "on").
  - left. reflexivity.
  - left. reflexivity.
Defined.

(** ** Numeric conversions *)



(** X16: the rotation speed pushed by [updateRotationSpeed] lies between 0
    and 100 when the motor speed lies between 655 and 1605, and is negative
    for every motor speed below 655 (such as the default 0). *)
Theorem rotationSpeedValue_range (motorSpeed : Z) :
  ((MIN_MOTOR_SPEED <= motorSpeed <= MAX_MOTOR_SPEED)%Z ->
   0 <= rotationSpeedValue motorSpeed /\ rotationSpeedValue motorSpeed <= 100) /\
  ((motorSpeed < MIN_MOTOR_SPEED)%Z -> rotationSpeedValue motorSpeed < 0).
Proof.
  unfold rotationSpeedValue, MIN_MOTOR_SPEED, MAX_MOTOR_SPEED.
  unfold Qle, Qlt, Qmult, Qdiv, Qminus, Qplus, Qopp, Qinv, inject_Z. simpl.
  split; intros H; lia.
Qed.

Lemma rotationSpeedValue_range_witness :
  (0 <= rotationSpeedValue 1130 /\ rotationSpeedValue 1130 <= 100) /\
  rotationSpeedValue 0 < 0.
Proof.
  split.
  - apply (proj1 (rotationSpeedValue_range 1130)).
    unfold MIN_MOTOR_SPEED, MAX_MOTOR_SPEED. lia.
  - apply (proj2 (rotationSpeedValue_range 0)).
    unfold MIN_MOTOR_SPEED. lia.
Defined.

(** X17: [aqiToQuality] is monotone and only yields the five grades from
    EXCELLENT to POOR. *)
Theorem aqiToQuality_monotone (aqi aqi' : Z) :
  (aqi <= aqi')%Z ->
  (aqiToQuality aqi <= aqiToQuality aqi')%Z /\
  (AirQuality.EXCELLENT <= aqiToQuality aqi <= AirQuality.POOR)%Z.
Proof.
  intros Hle.
  unfold aqiToQuality, AirQuality.POOR, AirQuality.INFERIOR, AirQuality.FAIR,
    AirQuality.GOOD, AirQuality.EXCELLENT.
  rewrite !Z.geb_leb.
  repeat match goal with
         | |- context [(?a <=? ?b)%Z] => destruct (Z.leb_spec a b)
         end; lia.
Qed.

Lemma aqiToQuality_monotone_witness :
  (aqiToQuality 49 <= aqiToQuality 50)%Z /\
  (AirQuality.EXCELLENT <= aqiToQuality 49 <= AirQuality.POOR)%Z.
Proof.
  apply (aqiToQuality_monotone 49 50). lia.
Defined.

(** ** The services of the accessory *)

(** X18: whatever the configuration, the array returned by [getServices]
    never contains the LED lightbulb service, and it contains the buzzer
    switch twice when the buzzer is enabled and not at all otherwise. *)
Theorem getServices_led_and_buzzer (config : PurifierConfig) :
  ~ In Lightbulb (getServices config) /\
  count_occ Service_eq_dec (getServices config) Switch =
    (if enableBuzzer config then 2%nat else 0%nat) /\
  List.length (getServices config) =
    (if enableBuzzer config then 8%nat else 6%nat).
Proof.
  destruct config as [[] []]; repeat split; try reflexivity;
    simpl; intuition discriminate.
Qed.

(** ** Power and the two power-driven characteristics *)

(** X19: a poll cycle in which the power key changed invokes both
    [updateActiveState] and [updateCurrentAirPurifierState], and the values
    the two push always agree: ACTIVE goes with PURIFYING_AIR and INACTIVE
    with INACTIVE, the former exactly when the stored power is ['on']. *)
Theorem power_updates_agree (c : Client) (w : World) (newState : Obj)
    (v : value) :
  snd (AirPurifierDevice.status c w) = Ok newState ->
  In (PropertyKeys.POWER, v) (entries newState) ->
  strict_neq (prop_get (status w) PropertyKeys.POWER) v = true ->
  In updateActiveState (dispatched (events_of updateState c w)) /\
  In updateCurrentAirPurifierState (dispatched (events_of updateState c w)) /\
  forall st : Obj,
    (prop_get st PropertyKeys.POWER = VStr "on" /\
     activeStateValue st = ACTIVE /\
     currentAirPurifierStateValue st = CurrentAirPurifierState.PURIFYING_AIR) \/
    (prop_get st PropertyKeys.POWER <> VStr "on" /\
     activeStateValue st = INACTIVE /\
     currentAirPurifierStateValue st = CurrentAirPurifierState.INACTIVE).
Proof.
  intros Hf Hin Hneq. rewrite (cycle_dispatched c w newState Hf).
  split; [|split].
  - apply itemsNeedUpdate_In. exists (PropertyKeys.POWER, v).
    repeat split; auto. simpl. auto.
  - apply itemsNeedUpdate_In. exists (PropertyKeys.POWER, v).
    repeat split; auto. simpl. auto.
  - intros st. unfold activeStateValue, currentAirPurifierStateValue.
    destruct (prop_get st PropertyKeys.POWER) as [| |b|n|s];
      try (right; split; [discriminate|split; reflexivity]).
    unfold strict_eq. destruct (String.eqb s "on") eqn:E.
    + apply String.eqb_eq in E. subst s. left. split; [|split]; reflexivity.
    + apply String.eqb_neq in E. right.
      split; [congruence|split; reflexivity].
Qed.

Lemma power_updates_agree_witness :
  In updateActiveState (dispatched (events_of updateState poweredOn initial)) /\
  In updateCurrentAirPurifierState
    (dispatched (events_of updateState poweredOn initial)) /\
  forall st : Obj,
    (prop_get st PropertyKeys.POWER = VStr "on" /\
     activeStateValue st = ACTIVE /\
     currentAirPurifierStateValue st = CurrentAirPurifierState.PURIFYING_AIR) \/
    (prop_get st PropertyKeys.POWER <> VStr "on" /\
     activeStateValue st = INACTIVE /\
     currentAirPurifierStateValue st = CurrentAirPurifierState.INACTIVE).
Proof.
  apply (power_updates_agree poweredOn initial
           (combine AirPurifierDevice.propertyKeys
              (replace_nth 0 (VStr "on") (replace_nth 1 (VNum 12) defaults1)
               ++ defaults2))
           (VStr "on")).
  - reflexivity.
  - left. reflexivity.
  - reflexivity.
Defined.
